(** * EEPROM programmer for the instruction decoder: model and verification

    The repository holds three revisions of one Arduino sketch that burns
    the control-word ROM of a SAP-1 style CPU:

    - [control-rom.ino]   (module [ControlRom]),
    - [unnamed/part_000]  (module [Part000]),
    - [unnamed/part_001]  (module [Part001]).

    The bus driver ([setAddress], [readEEPROM], [writeEEPROM],
    [printContents]) is the same text in the three files and is embedded
    once.  [writeInstruction], the signal constants, the microcode tables
    and [setup] differ and are embedded per revision. *)

From Stdlib Require Import ZArith List Bool Lia.
Import ListNotations.
Open Scope Z_scope.

(** ** Integer conventions

    [int] values are kept in [Z]; every value the sketches compute stays
    inside the 16-bit [int] of the AVR (see [programmed_in_chip] below).  A
    [byte] (uint8_t) parameter or variable truncates on assignment. *)

Definition to_byte (x : Z) : Z := x mod 256.

(** ** The board

    Pin numbers are the sketch's [#define]s. *)

Definition SHIFT_DATA : Z := 2.
Definition SHIFT_CLK : Z := 3.
Definition SHIFT_LATCH : Z := 4.
Definition EEPROM_D0 : Z := 5.
Definition EEPROM_D7 : Z := 12.
Definition WRITE_EN : Z := 13.

Inductive PinMode : Type := INPUT | OUTPUT.

Definition LOW : bool := false.
Definition HIGH : bool := true.

Definition is_output (m : PinMode) : bool :=
  match m with OUTPUT => true | INPUT => false end.

(** Point update of a total map. *)
Definition upd {A : Type} (f : Z -> A) (k : Z) (v : A) : Z -> A :=
  fun x => if x =? k then v else f x.

(** The state the sketch acts on: the microcontroller's pins, the pair of
    74HC595 shift registers behind them, and the EEPROM.

    - [mode], [level]: direction and output latch of every pin;
    - [shift_reg]: the 16 shift stages, the most recently clocked bit first,
      so stage [i] ends up driving address line [i] and stage 15 the chip's
      output-enable input;
    - [latched]: the storage register that drives the chip;
    - [mem]: contents of the EEPROM cells;
    - [pulses]: the write cycles the chip has seen, oldest first, as
      (address, data) pairs.  It is an observation trace only. *)
Record Board : Type := mkBoard {
  mode : Z -> PinMode;
  level : Z -> bool;
  shift_reg : list bool;
  latched : list bool;
  mem : Z -> Z;
  pulses : list (Z * Z)
}.

(** Little-endian bits to number. *)
Fixpoint bits_to_Z (bs : list bool) : Z :=
  match bs with
  | [] => 0
  | b :: bs' => Z.b2z b + 2 * bits_to_Z bs'
  end.

(** Inclusive integer range [lo .. hi], the index set of the sketch's
    counting loops. *)
Definition range (lo hi : Z) : list Z :=
  map (fun i => lo + Z.of_nat i) (seq 0 (Z.to_nat (hi - lo + 1))).

Definition data_pins : list Z := range EEPROM_D0 EEPROM_D7.

(** What the chip sees. *)
Definition addr_lines (s : Board) : Z := bits_to_Z (firstn 15 (latched s)).
Definition oe_disabled (s : Board) : bool := nth 15 (latched s) false.
Definition data_bus (s : Board) : Z := bits_to_Z (map (level s) data_pins).

(** ** A state monad for the sketch *)

Definition M (A : Type) : Type := Board -> A * Board.

Definition ret {A : Type} (a : A) : M A := fun s => (a, s).

Definition bind {A B : Type} (m : M A) (k : A -> M B) : M B :=
  fun s => let (a, s') := m s in k a s'.

Notation "x <- m ;; k" := (bind m (fun x => k))
  (at level 61, m at next level, right associativity).
Notation "m ;; k" := (bind m (fun _ => k))
  (at level 61, right associativity).

Definition exec {A : Type} (m : M A) (s : Board) : Board := snd (m s).
Definition eval {A : Type} (m : M A) (s : Board) : A := fst (m s).

(** [for (x : l) body] *)
Fixpoint for_each {A : Type} (l : list A) (body : A -> M unit) : M unit :=
  match l with
  | [] => ret tt
  | x :: l' => body x ;; for_each l' body
  end.

(** A loop that carries a local variable. *)
Fixpoint for_acc {A B : Type} (l : list A) (acc : B) (body : A -> B -> M B)
  : M B :=
  match l with
  | [] => ret acc
  | x :: l' => acc' <- body x acc ;; for_acc l' acc' body
  end.

(** ** Arduino core primitives and the hardware's reaction to them *)

Definition pinMode (pin : Z) (m : PinMode) : M unit := fun s =>
  (tt, mkBoard (upd (mode s) pin m) (level s) (shift_reg s) (latched s)
               (mem s) (pulses s)).

(** [digitalWrite] sets the pin's output latch.  When the pin drives its
    line, a rising edge is seen by the hardware wired to it:
    - on [SHIFT_CLK] the registers shift in the level of [SHIFT_DATA];
    - on [SHIFT_LATCH] the shift stages are copied to the outputs;
    - on [WRITE_EN] (the end of a low pulse) the EEPROM, if its outputs are
      disabled, stores the byte on the data lines in the addressed cell. *)
Definition digitalWrite (pin : Z) (v : bool) : M unit := fun s =>
  let rising := is_output (mode s pin) && negb (level s pin) && v in
  let lv := upd (level s) pin v in
  (tt,
   if (pin =? SHIFT_CLK) && rising then
     mkBoard (mode s) lv (firstn 16 (level s SHIFT_DATA :: shift_reg s))
             (latched s) (mem s) (pulses s)
   else if (pin =? SHIFT_LATCH) && rising then
     mkBoard (mode s) lv (shift_reg s) (shift_reg s) (mem s) (pulses s)
   else if (pin =? WRITE_EN) && rising && oe_disabled s then
     mkBoard (mode s) lv (shift_reg s) (latched s)
             (upd (mem s) (addr_lines s) (data_bus s))
             (pulses s ++ [(addr_lines s, data_bus s)])
   else
     mkBoard (mode s) lv (shift_reg s) (latched s) (mem s) (pulses s)).

(** [digitalRead]: an output pin reads back its own latch; a data pin that
    is an input reads the bit the chip drives when its outputs are enabled. *)
Definition digitalRead (pin : Z) : M Z := fun s =>
  (match mode s pin with
   | OUTPUT => Z.b2z (level s pin)
   | INPUT =>
       if (EEPROM_D0 <=? pin) && (pin <=? EEPROM_D7) && negb (oe_disabled s)
       then Z.b2z (Z.testbit (mem s (addr_lines s)) (pin - EEPROM_D0))
       else Z.b2z (level s pin)
   end, s).

(** Busy waits take time and change nothing. *)
Definition delayMicroseconds (us : Z) : M unit := ret tt.
Definition delay (ms : Z) : M unit := ret tt.

(** [shiftOut(dataPin, clockPin, MSBFIRST, val)] of the Arduino core: [val]
    is a [uint8_t]; bit 7 goes out first, each bit followed by a clock
    pulse. *)
Definition shiftOut (dataPin clockPin : Z) (val : Z) : M unit :=
  let val := to_byte val in
  for_each (range 0 7) (fun i =>
    digitalWrite dataPin (negb (Z.land val (Z.shiftl 1 (7 - i)) =? 0)) ;;
    digitalWrite clockPin HIGH ;;
    digitalWrite clockPin LOW).

(** ** The bus driver (identical in the three revisions) *)

Definition setAddress (address : Z) (outputEnable : bool) : M unit :=
  shiftOut SHIFT_DATA SHIFT_CLK
    (Z.lor (Z.shiftr address 8) (if outputEnable then 0x00 else 0x80)) ;;
  shiftOut SHIFT_DATA SHIFT_CLK address ;;
  digitalWrite SHIFT_LATCH LOW ;;
  digitalWrite SHIFT_LATCH HIGH ;;
  digitalWrite SHIFT_LATCH LOW.

Definition readEEPROM (address : Z) : M Z :=
  for_each (range EEPROM_D0 EEPROM_D7) (fun pin => pinMode pin INPUT) ;;
  setAddress address true ;;
  for_acc (rev (range EEPROM_D0 EEPROM_D7)) 0 (fun pin data =>
    b <- digitalRead pin ;;
    ret (to_byte (Z.shiftl data 1 + b))).

Definition writeEEPROM (address : Z) (data : Z) : M unit :=
  let data := to_byte data in
  setAddress address false ;;
  for_each (range EEPROM_D0 EEPROM_D7) (fun pin => pinMode pin OUTPUT) ;;
  for_acc (range EEPROM_D0 EEPROM_D7) data (fun pin data =>
    digitalWrite pin (negb (Z.land data 1 =? 0)) ;;
    ret (Z.shiftr data 1)) ;;
  digitalWrite WRITE_EN LOW ;;
  delayMicroseconds 1 ;;
  digitalWrite WRITE_EN HIGH ;;
  delay 10.

(** [printContents] reads the first 256 cells, 16 per line; the formatting
    and the serial port are left out, the bytes read are returned. *)
Definition printContents : M (list (list Z)) :=
  for_acc (map (fun k => 16 * Z.of_nat k) (seq 0 16)) [] (fun base lines =>
    data <- for_acc (range 0 15) [] (fun offset data =>
              b <- readEEPROM (base + offset) ;;
              ret (data ++ [b])) ;;
    ret (lines ++ [data])).

(** The pin set-up that opens [setup] in the three revisions. *)
Definition init_pins : M unit :=
  pinMode SHIFT_DATA OUTPUT ;;
  pinMode SHIFT_CLK OUTPUT ;;
  pinMode SHIFT_LATCH OUTPUT ;;
  digitalWrite WRITE_EN HIGH ;;
  pinMode WRITE_EN OUTPUT.

(** The erase loop of the three revisions:
    [for (int address = 0; address <= 2047; address += 1)]. *)
Definition erase : M unit :=
  for_each (range 0 2047) (fun address => writeEEPROM address 0xff).

(** Reset state of the microcontroller: every pin an input with its latch
    cleared.  The registers and the memory hold anything. *)
Definition power_on (reg lat : list bool) (m : Z -> Z) : Board :=
  mkBoard (fun _ => INPUT) (fun _ => LOW) reg lat m [].

(** ** Revision [control-rom.ino]

    Address inputs of the chip, from the file's header: bits 5-0 the ring
    counter signal (T0, T1, ... inverted), bits 10-6 the instruction. *)
Module ControlRom.

Section Build.
(** [#define ROM_SELECT 1]; the other chip is built with 2. *)
Variable ROM_SELECT : Z.

Definition ROM_1_SELECT : bool := ROM_SELECT =? 1.
Definition ROM_2_SELECT : bool := ROM_SELECT =? 2.

(** Signals.  The selector each constant is multiplied by decides the
    chip it is burnt into. *)
Definition HLT : Z := to_byte (1 * Z.b2z ROM_2_SELECT).
Definition MI : Z := to_byte (2 * Z.b2z ROM_2_SELECT).
Definition RI : Z := to_byte (4 * Z.b2z ROM_2_SELECT).
Definition RO : Z := to_byte (8 * Z.b2z ROM_2_SELECT).
Definition IO : Z := to_byte (16 * Z.b2z ROM_2_SELECT).
Definition II : Z := to_byte (32 * Z.b2z ROM_2_SELECT).
Definition AI : Z := to_byte (64 * Z.b2z ROM_2_SELECT).
Definition AO : Z := to_byte (128 * Z.b2z ROM_1_SELECT).

Definition EO : Z := to_byte (1 * Z.b2z ROM_1_SELECT).
Definition SU : Z := to_byte (2 * Z.b2z ROM_1_SELECT).
Definition BI : Z := to_byte (4 * Z.b2z ROM_1_SELECT).
Definition OI : Z := to_byte (8 * Z.b2z ROM_1_SELECT).
Definition CE : Z := to_byte (16 * Z.b2z ROM_1_SELECT).
Definition CO : Z := to_byte (32 * Z.b2z ROM_1_SELECT).
Definition J : Z := to_byte (64 * Z.b2z ROM_1_SELECT).

Definition NOOP : Z := 0.

(** Operations *)
Definition FETCH : list Z := [Z.lor CO MI; Z.lor RO II; CE].

Definition LDA : list Z := [Z.lor IO MI; Z.lor RO AI; NOOP].
Definition ADD : list Z := [Z.lor IO MI; Z.lor RO BI; Z.lor EO AI].
Definition SUB : list Z :=
  [Z.lor IO MI; Z.lor RO BI; Z.lor (Z.lor EO AI) SU].

Definition LDI : list Z := [Z.lor IO AI; NOOP; NOOP].
Definition STA : list Z := [Z.lor IO MI; Z.lor AO RI; NOOP].
Definition INC : list Z := [Z.lor IO BI; Z.lor EO AI; NOOP].
Definition DEC : list Z := [Z.lor IO BI; Z.lor (Z.lor EO AI) SU; NOOP].
Definition JMP : list Z := [Z.lor IO J; NOOP; NOOP].
Definition NOP : list Z := [NOOP; NOOP; NOOP].

Definition OUT : list Z := [Z.lor AO OI; NOOP; NOOP].
Definition HALT : list Z := [HLT; NOOP; NOOP].

(** The signals grouped by the selector that enables them. *)
Definition bank1_signals : list Z := [AO; EO; SU; BI; OI; CE; CO; J].
Definition bank2_signals : list Z := [HLT; MI; RI; RO; IO; II; AI].
End Build.

(** The address [writeInstruction] computes in iteration [t]. *)
Definition address (instruction t_start t : Z) : Z :=
  let instruction := to_byte instruction in
  let i_address := Z.shiftl instruction 6 in
  let t_address := Z.shiftr 0x20 (t + t_start) in
  let t_address := Z.lnot t_address in
  let t_address := Z.land t_address 0x3F in
  Z.lor i_address t_address.

Definition writeInstruction (instruction t_start : Z) (ops : list Z)
  : M unit :=
  let instruction := to_byte instruction in
  let i_address := Z.shiftl instruction 6 in
  for_each (range 0 2) (fun t =>
    let t_address := Z.shiftr 0x20 (t + t_start) in
    let t_address := Z.lnot t_address in
    let t_address := Z.land t_address 0x3F in
    let address := Z.lor i_address t_address in
    writeEEPROM address (nth (Z.to_nat t) ops 0)).

(** [for (byte i = 0; i < 0x10; ++i) writeInstruction(i, 0, FETCH);] *)
Definition program_fetch (ROM_SELECT : Z) : M unit :=
  for_each (range 0 15) (fun i => writeInstruction i 0 (FETCH ROM_SELECT)).

Definition program_instructions (ROM_SELECT : Z) : M unit :=
  writeInstruction 0x0 3 (LDA ROM_SELECT) ;;
  writeInstruction 0x1 3 (ADD ROM_SELECT) ;;
  writeInstruction 0x2 3 (SUB ROM_SELECT) ;;
  writeInstruction 0xE 3 (OUT ROM_SELECT) ;;
  writeInstruction 0xF 3 (HALT ROM_SELECT).

Definition setup (ROM_SELECT : Z) : M (list (list Z)) :=
  init_pins ;;
  erase ;;
  program_fetch ROM_SELECT ;;
  program_instructions ROM_SELECT ;;
  printContents.

(** Field masks of the address, read off [writeInstruction]: the ring
    counter signal is masked with [0x3F]; the opcode sits above it. *)
Definition T_MASK : Z := 0x3F.
Definition I_SHIFT : Z := 6.

(** The calls of [writeInstruction] made by [setup], in order. *)
Definition calls (ROM_SELECT : Z) : list (Z * Z * list Z) :=
  map (fun i => (i, 0, FETCH ROM_SELECT)) (range 0 15) ++
  [ (0x0, 3, LDA ROM_SELECT); (0x1, 3, ADD ROM_SELECT);
    (0x2, 3, SUB ROM_SELECT); (0xE, 3, OUT ROM_SELECT);
    (0xF, 3, HALT ROM_SELECT) ].

End ControlRom.

(** ** Revision [unnamed/part_000]

    Same signals as above in another bit order; the address carries the
    masked opcode in its low four bits and the inverted ring counter signal
    under the mask [0x3F0]. *)
Module Part000.

Section Build.
Variable ROM_SELECT : Z.

Definition ROM_1_SELECT : bool := ROM_SELECT =? 1.
Definition ROM_2_SELECT : bool := ROM_SELECT =? 2.

(** J-AO on rom 1 *)
Definition J : Z := to_byte (1 * Z.b2z ROM_1_SELECT).
Definition CO : Z := to_byte (2 * Z.b2z ROM_1_SELECT).
Definition CE : Z := to_byte (4 * Z.b2z ROM_1_SELECT).
Definition OI : Z := to_byte (8 * Z.b2z ROM_1_SELECT).
Definition BI : Z := to_byte (16 * Z.b2z ROM_1_SELECT).
Definition SU : Z := to_byte (32 * Z.b2z ROM_1_SELECT).
Definition EO : Z := to_byte (64 * Z.b2z ROM_1_SELECT).
Definition AO : Z := to_byte (128 * Z.b2z ROM_1_SELECT).

(** AI-HLT on rom 2 *)
Definition AI : Z := to_byte (1 * Z.b2z ROM_2_SELECT).
Definition II : Z := to_byte (2 * Z.b2z ROM_2_SELECT).
Definition IO : Z := to_byte (4 * Z.b2z ROM_2_SELECT).
Definition RO : Z := to_byte (8 * Z.b2z ROM_2_SELECT).
Definition RI : Z := to_byte (16 * Z.b2z ROM_2_SELECT).
Definition MI : Z := to_byte (32 * Z.b2z ROM_2_SELECT).
Definition HLT : Z := to_byte (64 * Z.b2z ROM_2_SELECT).

Definition NOOP : Z := 0.

Definition FETCH : list Z := [Z.lor CO MI; Z.lor RO II; CE].
Definition LDA : list Z := [Z.lor IO MI; Z.lor RO AI; NOOP].
Definition ADD : list Z := [Z.lor IO MI; Z.lor RO BI; Z.lor EO AI].
Definition SUB : list Z :=
  [Z.lor IO MI; Z.lor RO BI; Z.lor (Z.lor EO AI) SU].
Definition OUT : list Z := [Z.lor AO OI; NOOP; NOOP].
Definition HALT : list Z := [HLT; NOOP; NOOP].

Definition bank1_signals : list Z := [J; CO; CE; OI; BI; SU; EO; AO].
Definition bank2_signals : list Z := [AI; II; IO; RO; RI; MI; HLT].
End Build.

Definition address (instruction t_start t : Z) : Z :=
  let instruction := to_byte instruction in
  let address := Z.shiftr 0x80 (t_start + t) in
  let address := Z.lnot address in
  let address := Z.land address 0x3F0 in
  let instruction := to_byte (Z.land instruction 0x00F) in
  Z.lor address instruction.

(** The loop masks the [byte] parameter in place, so the masked value is
    carried from one iteration to the next. *)
Definition writeInstruction (instruction t_start : Z) (ops : list Z)
  : M unit :=
  let instruction := to_byte instruction in
  for_acc (range 0 2) instruction (fun t instruction =>
    let address := Z.shiftr 0x80 (t_start + t) in
    let address := Z.lnot address in
    let address := Z.land address 0x3F0 in
    let instruction := to_byte (Z.land instruction 0x00F) in
    let address := Z.lor address instruction in
    writeEEPROM address (nth (Z.to_nat t) ops 0) ;;
    ret instruction) ;;
  ret tt.

Definition program_fetch (ROM_SELECT : Z) : M unit :=
  for_each (range 0 15) (fun i => writeInstruction i 0 (FETCH ROM_SELECT)).

Definition program_instructions (ROM_SELECT : Z) : M unit :=
  writeInstruction 0x0 3 (LDA ROM_SELECT) ;;
  writeInstruction 0x1 3 (ADD ROM_SELECT) ;;
  writeInstruction 0x2 3 (SUB ROM_SELECT) ;;
  writeInstruction 0xE 3 (OUT ROM_SELECT) ;;
  writeInstruction 0xF 3 (HALT ROM_SELECT).

Definition setup (ROM_SELECT : Z) : M (list (list Z)) :=
  init_pins ;;
  erase ;;
  program_fetch ROM_SELECT ;;
  program_instructions ROM_SELECT ;;
  printContents.

(** Field masks of the address, the constants of [writeInstruction]. *)
Definition T_MASK : Z := 0x3F0.
Definition I_MASK : Z := 0x00F.

Definition calls (ROM_SELECT : Z) : list (Z * Z * list Z) :=
  map (fun i => (i, 0, FETCH ROM_SELECT)) (range 0 15) ++
  [ (0x0, 3, LDA ROM_SELECT); (0x1, 3, ADD ROM_SELECT);
    (0x2, 3, SUB ROM_SELECT); (0xE, 3, OUT ROM_SELECT);
    (0xF, 3, HALT ROM_SELECT) ].

End Part000.

(** ** Revision [unnamed/part_001]

    For the first of the two chips only: the signals of the second chip are
    the constant 0.  From its header: the instruction bits are zeroed by the
    hardware during T1-T3, so the fetch cycle is stored once. *)
Module Part001.

(** J-AO on rom 1 *)
Definition J : Z := 1.
Definition CO : Z := 2.
Definition CE : Z := 4.
Definition OI : Z := 8.
Definition BI : Z := 16.
Definition SU : Z := 32.
Definition EO : Z := 64.
Definition AO : Z := 128.

(** AI-HLT on rom 2 *)
Definition AI : Z := 0.
Definition II : Z := 0.
Definition IO : Z := 0.
Definition RO : Z := 0.
Definition RI : Z := 0.
Definition MI : Z := 0.
Definition HLT : Z := 0.

Definition NOOP : Z := 0.

Definition FETCH : list Z := [to_byte (CO + MI); to_byte (RO + II); CE].
Definition LDA : list Z := [to_byte (IO + MI); to_byte (RO + AI); NOOP].
Definition ADD : list Z :=
  [to_byte (IO + MI); to_byte (RO + BI); to_byte (EO + AI)].
Definition SUB : list Z :=
  [to_byte (IO + MI); to_byte (RO + BI); to_byte (EO + AI + SU)].
Definition OUT : list Z := [to_byte (AO + OI); NOOP; NOOP].
Definition HALT : list Z := [HLT; NOOP; NOOP].

Definition bank1_signals : list Z := [J; CO; CE; OI; BI; SU; EO; AO].
Definition bank2_signals : list Z := [AI; II; IO; RO; RI; MI; HLT].

(** Here [instruction] is an [int] and is not masked. *)
Definition address (instruction t_start t : Z) : Z :=
  Z.shiftr 0x80 (t_start + t) + instruction.

Definition writeInstruction (instruction t_start : Z) (ops : list Z)
  : M unit :=
  for_each (range 0 2) (fun t =>
    let address := Z.shiftr 0x80 (t_start + t) + instruction in
    writeEEPROM address (nth (Z.to_nat t) ops 0)).

Definition program_fetch : M unit :=
  writeInstruction 0x0 0 FETCH.

Definition program_instructions : M unit :=
  writeInstruction 0x0 3 LDA ;;
  writeInstruction 0x1 3 ADD ;;
  writeInstruction 0x2 3 SUB ;;
  writeInstruction 0xE 3 OUT ;;
  writeInstruction 0xF 3 HALT.

Definition setup : M (list (list Z)) :=
  init_pins ;;
  erase ;;
  program_fetch ;;
  program_instructions ;;
  printContents.

Definition calls : list (Z * Z * list Z) :=
  [ (0x0, 0, FETCH);
    (0x0, 3, LDA); (0x1, 3, ADD); (0x2, 3, SUB); (0xE, 3, OUT);
    (0xF, 3, HALT) ].

End Part001.

(** ** Vocabulary of the properties *)

(** The [n] low bits of [x], least significant first. *)
Definition low_bits (n : nat) (x : Z) : list bool :=
  map (fun i => Z.testbit x (Z.of_nat i)) (seq 0 n).

(** The 16 bits [setAddress] presents to the chip, line 0 first. *)
Definition bus_word (address : Z) (outputEnable : bool) : list bool :=
  low_bits 8 (to_byte address) ++
  low_bits 8 (to_byte (Z.lor (Z.shiftr address 8)
                             (if outputEnable then 0x00 else 0x80))).

(** The control lines at rest: the three outputs the driver pulses are
    configured, the clock and the latch are low, write-enable is high. *)
Definition bus_ok (s : Board) : Prop :=
  mode s SHIFT_CLK = OUTPUT /\ mode s SHIFT_LATCH = OUTPUT /\
  mode s WRITE_EN = OUTPUT /\
  level s SHIFT_CLK = LOW /\ level s SHIFT_LATCH = LOW /\
  level s WRITE_EN = HIGH.

(** Memory after a sequence of write cycles, oldest first. *)
Fixpoint apply_writes (ws : list (Z * Z)) (m : Z -> Z) : Z -> Z :=
  match ws with
  | [] => m
  | (a, d) :: ws' => apply_writes ws' (upd m a d)
  end.

(** The value the most recent write cycle to [a] stored, if any. *)
Fixpoint last_write (ws : list (Z * Z)) (a : Z) : option Z :=
  match ws with
  | [] => None
  | (a', d) :: ws' =>
      match last_write ws' a with
      | Some v => Some v
      | None => if a =? a' then Some d else None
      end
  end.

(** States the sketch can be in between two driver operations. *)
Inductive reachable : Board -> Prop :=
| reach_init reg lat m : reachable (exec init_pins (power_on reg lat m))
| reach_setAddress s a oe :
    reachable s -> reachable (exec (setAddress a oe) s)
| reach_read s a : reachable s -> reachable (exec (readEEPROM a) s)
| reach_write s a d : reachable s -> reachable (exec (writeEEPROM a d) s).

(** [performs m ws]: started with the control lines at rest, [m] issues
    exactly the write cycles [ws], leaves the memory as these cycles make it
    and the control lines at rest again. *)
Definition performs {A : Type} (m : M A) (ws : list (Z * Z)) : Prop :=
  forall s, bus_ok s ->
    bus_ok (exec m s) /\
    mem (exec m s) = apply_writes ws (mem s) /\
    pulses (exec m s) = pulses s ++ ws.

(** The three revisions, the first two with their build-time chip
    selection. *)
Inductive Revision : Type :=
| control_rom (ROM_SELECT : Z)
| part_000 (ROM_SELECT : Z)
| part_001.

Definition address_of (r : Revision) : Z -> Z -> Z -> Z :=
  match r with
  | control_rom _ => ControlRom.address
  | part_000 _ => Part000.address
  | part_001 => Part001.address
  end.

Definition calls_of (r : Revision) : list (Z * Z * list Z) :=
  match r with
  | control_rom b => ControlRom.calls b
  | part_000 b => Part000.calls b
  | part_001 => Part001.calls
  end.

Definition fetch_table (r : Revision) : list Z :=
  match r with
  | control_rom b => ControlRom.FETCH b
  | part_000 b => Part000.FETCH b
  | part_001 => Part001.FETCH
  end.

Definition fetch_phase (r : Revision) : M unit :=
  match r with
  | control_rom b => ControlRom.program_fetch b
  | part_000 b => Part000.program_fetch b
  | part_001 => Part001.program_fetch
  end.

Definition setup_of (r : Revision) : M (list (list Z)) :=
  match r with
  | control_rom b => ControlRom.setup b
  | part_000 b => Part000.setup b
  | part_001 => Part001.setup
  end.

(** The programming phase of each revision. *)
Definition programming (r : Revision) : M unit :=
  match r with
  | control_rom b =>
      ControlRom.program_fetch b ;; ControlRom.program_instructions b
  | part_000 b => Part000.program_fetch b ;; Part000.program_instructions b
  | part_001 => Part001.program_fetch ;; Part001.program_instructions
  end.

(** The opcodes [setup] stores the fetch cycle for. *)
Definition fetch_opcodes (r : Revision) : list Z :=
  match r with
  | control_rom _ => range 0 15
  | part_000 _ => range 0 15
  | part_001 => [0]
  end.

(** The address for opcode [o] at time-step [n] of the instruction cycle:
    [writeInstruction] reaches time-step [t_start + t] in iteration [t]. *)
Definition encode (r : Revision) (o n : Z) : Z := address_of r o n 0.

(** The write cycles of one [writeInstruction] call. *)
Definition step_writes (r : Revision) (c : Z * Z * list Z) : list (Z * Z) :=
  let '(o, t_start, ops) := c in
  map (fun t => (address_of r o t_start t mod 32768,
                 to_byte (nth (Z.to_nat t) ops 0)))
      (range 0 2).

(** The write cycles of the erase loop and of the programming phase. *)
Definition erase_writes : list (Z * Z) :=
  map (fun a => (a, 0xff)) (range 0 2047).

Definition program_writes (r : Revision) : list (Z * Z) :=
  flat_map (step_writes r) (calls_of r).

(** What [setup] programs: (opcode, time-step, micro-step byte). *)
Definition programmed (r : Revision) : list (Z * Z * Z) :=
  flat_map (fun c : Z * Z * list Z =>
              let '(o, t_start, ops) := c in
              map (fun t => (o, t_start + t, nth (Z.to_nat t) ops 0))
                  (range 0 2))
           (calls_of r).

(** The byte read back at [a] once [setup] has run from reset. *)
Definition readback (r : Revision) (reg lat : list bool) (m : Z -> Z)
  (a : Z) : Z :=
  eval (readEEPROM a) (exec (setup_of r) (power_on reg lat m)).

(** *** Address fields

    The bits of the address that carry the ring counter signal and the
    opcode.  In [control-rom.ino] and [part_000] they are the masks and the
    shift of [writeInstruction]; the opcode field of [control-rom.ino] is
    taken as wide as its header states it (bits 10-6).  [part_001] has no
    masks: its one-hot signal [0x80 >> n] runs over bits 7..2 for the six
    time-steps, and the opcode is added in at bit 0. *)
Definition timing_mask (r : Revision) : Z :=
  match r with
  | control_rom _ => ControlRom.T_MASK
  | part_000 _ => Part000.T_MASK
  | part_001 => 0xFC
  end.

Definition opcode_mask (r : Revision) : Z :=
  match r with
  | control_rom _ => Z.shiftl 0x1F ControlRom.I_SHIFT
  | part_000 _ => Part000.I_MASK
  | part_001 => 0x00F
  end.

(** The fields as the header of [part_001] states them: ring counter
    signal on bits 0-5, instruction on bits 6-10. *)
Definition part_001_header_timing_mask : Z := 0x3F.
Definition part_001_header_opcode_mask : Z := 0x7C0.

(** Two addresses agree outside the timing field, and in the opcode
    field. *)
Definition same_but_timing (r : Revision) (a1 a2 : Z) : bool :=
  (Z.land a1 (Z.lnot (timing_mask r)) =? Z.land a2 (Z.lnot (timing_mask r)))
  && (Z.land a1 (opcode_mask r) =? Z.land a2 (opcode_mask r)).

(** Number of address bits a layout with the given field masks uses. *)
Definition address_bits (mask : Z) : Z := Z.log2 mask + 1.

(** *** Decision procedures over the programmed image *)

(** Every programmed address lies in the 2048 cells the erase loop
    covers. *)
Definition in_chip (r : Revision) : bool :=
  forallb (fun p : Z * Z * Z =>
             let '(o, n, _) := p in
             (0 <=? encode r o n) && (encode r o n <? 2048))
          (programmed r).

(** Every programmed pair reads back as the table defines it. *)
Definition round_trips (r : Revision) : bool :=
  forallb (fun p : Z * Z * Z =>
             let '(o, n, v) := p in
             match last_write (program_writes r) (encode r o n) with
             | Some w => w mod 256 =? v
             | None => false
             end)
          (programmed r).

(** Distinct programmed pairs have distinct addresses. *)
Definition collision_free (r : Revision) : bool :=
  forallb (fun p : Z * Z * Z =>
     forallb (fun q : Z * Z * Z =>
                let '(o, n, _) := p in
                let '(o', n', _) := q in
                implb (encode r o n =? encode r o' n')
                      ((o =? o') && (n =? n')))
             (programmed r))
    (programmed r).

(** The fetch steps and the instruction steps of every opcode keep the
    opcode field. *)
Definition fields_kept (r : Revision) : bool :=
  forallb (fun o =>
     forallb (fun t =>
                same_but_timing r (address_of r o 3 t) (address_of r o 0 t))
             (range 0 2))
    (range 0 15).

(** A list of distinct single-bit bytes. *)
Definition single_bit (x : Z) : bool :=
  existsb (fun k => x =? 2 ^ k) (range 0 7).

Fixpoint distinct (l : list Z) : bool :=
  match l with
  | [] => true
  | x :: l' => negb (existsb (Z.eqb x) l') && distinct l'
  end.

Definition distinct_bits (l : list Z) : bool :=
  forallb single_bit l && distinct l.

(** The builds that differ: a revision behaves as one of these. *)
Definition builds : list Revision :=
  [ control_rom 1; control_rom 2; control_rom 0;
    part_000 1; part_000 2; part_000 0; part_001 ].

(** Two revisions with the same address computation and the same calls. *)
Definition same_build (r r' : Revision) : Prop :=
  address_of r = address_of r' /\ calls_of r = calls_of r'.

(** Every element is one bit of a byte, and no two are the same bit. *)
Definition one_bit_each (l : list Z) : Prop :=
  NoDup l /\ Forall (fun x => exists k, 0 <= k <= 7 /\ x = 2 ^ k) l.

(** *** Banks

    The signals of the chip a build is for, those of the other chip, and
    every operation table of the revision. *)
Definition own_signals (r : Revision) : list Z :=
  match r with
  | control_rom b =>
      if ControlRom.ROM_1_SELECT b then ControlRom.bank1_signals b
      else ControlRom.bank2_signals b
  | part_000 b =>
      if Part000.ROM_1_SELECT b then Part000.bank1_signals b
      else Part000.bank2_signals b
  | part_001 => Part001.bank1_signals
  end.

Definition other_signals (r : Revision) : list Z :=
  match r with
  | control_rom b =>
      if ControlRom.ROM_1_SELECT b then ControlRom.bank2_signals b
      else ControlRom.bank1_signals b
  | part_000 b =>
      if Part000.ROM_1_SELECT b then Part000.bank2_signals b
      else Part000.bank1_signals b
  | part_001 => Part001.bank2_signals
  end.

Definition tables_of (r : Revision) : list (list Z) :=
  match r with
  | control_rom b =>
      [ ControlRom.FETCH b; ControlRom.LDA b; ControlRom.ADD b;
        ControlRom.SUB b; ControlRom.LDI b; ControlRom.STA b;
        ControlRom.INC b; ControlRom.DEC b; ControlRom.JMP b;
        ControlRom.NOP; ControlRom.OUT b; ControlRom.HALT b ]
  | part_000 b =>
      [ Part000.FETCH b; Part000.LDA b; Part000.ADD b; Part000.SUB b;
        Part000.OUT b; Part000.HALT b ]
  | part_001 =>
      [ Part001.FETCH; Part001.LDA; Part001.ADD; Part001.SUB;
        Part001.OUT; Part001.HALT ]
  end.

(** The bits a list of signals occupies. *)
Definition bank_bits (l : list Z) : Z := fold_right Z.lor 0 l.

(** The builds for one chip or the other. *)
Definition chip_builds : list Revision :=
  [ control_rom 1; control_rom 2; part_000 1; part_000 2; part_001 ].

(** The board once the pin set-up of [setup] has run from reset, with a
    blank chip. *)
Definition fresh_board : Board :=
  exec init_pins (power_on [] [] (fun _ => 0)).

(** *** The rest of the sketch *)


(** What [printContents] shows of a memory: 16 lines of 16 bytes, the cells
    0 to 255. *)
Definition dump (f : Z -> Z) : list (list Z) :=
  map (fun base => map (fun offset => f (base + offset) mod 256)
                       (range 0 15))
      (map (fun k => 16 * Z.of_nat k) (seq 0 16)).

(** The instruction steps of the opcodes 3 to 13 lie in the 2048 cells the
    erase loop covers. *)
Definition in_chip_steps (r : Revision) : bool :=
  forallb (fun o =>
     forallb (fun n => (0 <=? encode r o n) && (encode r o n <? 2048))
             (range 3 5))
    (range 3 13).

(** *** Tactics *)

(** Two pin numbers differ. *)
Ltac pins := cbv; discriminate.

(** Membership in a list of closed terms. *)
Ltac in_list := vm_compute; repeat (first [left; reflexivity | right]).

(** * Properties *)

(** ** The model run on concrete inputs *)

Example write_then_read :
  eval (readEEPROM 0x1F) (exec (writeEEPROM 0x1F 0xA5) fresh_board) = 0xA5.
Proof. vm_compute. reflexivity. Qed.

Example read_untouched_cell :
  eval (readEEPROM 0x1E) (exec (writeEEPROM 0x1F 0xA5) fresh_board) = 0.
Proof. vm_compute. reflexivity. Qed.

Example control_rom_lda_cycles :
  pulses (exec (ControlRom.writeInstruction 0x0 3 (ControlRom.LDA 2))
               fresh_board)
  = [(0x3B, 18); (0x3D, 72); (0x3E, 0)].
Proof. vm_compute. reflexivity. Qed.

Example part_000_add_cycles :
  pulses (exec (Part000.writeInstruction 0x1 3 (Part000.ADD 1)) fresh_board)
  = [(0x3E1, 0); (0x3F1, 16); (0x3F1, 64)].
Proof. vm_compute. reflexivity. Qed.

Example part_001_out_cycles :
  pulses (exec (Part001.writeInstruction 0xE 3 Part001.OUT) fresh_board)
  = [(0x1E, 136); (0x16, 0); (0x12, 0)].
Proof. vm_compute. reflexivity. Qed.

Example part_001_sub_cycles :
  pulses (exec (Part001.writeInstruction 0x2 3 Part001.SUB) fresh_board)
  = [(0x12, 0); (0x0A, 16); (0x06, 96)].
Proof. vm_compute. reflexivity. Qed.

(** ** The monad and the loops *)

Lemma exec_bind {A B : Type} (m : M A) (k : A -> M B) (s : Board) :
  exec (bind m k) s = exec (k (eval m s)) (exec m s).
Proof. unfold exec, eval, bind. destruct (m s); reflexivity. Qed.

Lemma eval_bind {A B : Type} (m : M A) (k : A -> M B) (s : Board) :
  eval (bind m k) s = eval (k (eval m s)) (exec m s).
Proof. unfold exec, eval, bind. destruct (m s); reflexivity. Qed.

Lemma exec_ret {A : Type} (a : A) (s : Board) : exec (ret a) s = s.
Proof. reflexivity. Qed.

Lemma eval_ret {A : Type} (a : A) (s : Board) : eval (ret a) s = a.
Proof. reflexivity. Qed.

Lemma exec_for_each_cons {A : Type} (x : A) l body s :
  exec (for_each (x :: l) body) s = exec (for_each l body) (exec (body x) s).
Proof. exact (exec_bind (body x) (fun _ => for_each l body) s). Qed.

Lemma exec_for_acc_cons {A B : Type} (x : A) l (acc : B) body s :
  exec (for_acc (x :: l) acc body) s
  = exec (for_acc l (eval (body x acc) s) body) (exec (body x acc) s).
Proof.
  exact (exec_bind (body x acc) (fun acc' => for_acc l acc' body) s).
Qed.

Lemma eval_for_acc_cons {A B : Type} (x : A) l (acc : B) body s :
  eval (for_acc (x :: l) acc body) s
  = eval (for_acc l (eval (body x acc) s) body) (exec (body x acc) s).
Proof.
  exact (eval_bind (body x acc) (fun acc' => for_acc l acc' body) s).
Qed.

(** ** Ranges and bit lists *)

Lemma in_range (lo hi x : Z) : In x (range lo hi) <-> lo <= x <= hi.
Proof.
  unfold range. rewrite in_map_iff. split.
  - intros (i & <- & Hi). apply in_seq in Hi. lia.
  - intros H. exists (Z.to_nat (x - lo)). split; [lia|].
    apply in_seq. lia.
Qed.

Lemma bits_to_Z_app (l1 l2 : list bool) :
  bits_to_Z (l1 ++ l2)
  = bits_to_Z l1 + 2 ^ Z.of_nat (length l1) * bits_to_Z l2.
Proof.
  induction l1 as [|b l1 IH]; cbn [app bits_to_Z length].
  - change (2 ^ Z.of_nat 0) with 1. lia.
  - rewrite IH, Nat2Z.inj_succ, Z.pow_succ_r by lia. lia.
Qed.

Lemma bits_to_Z_low_bits (n : nat) (x : Z) :
  bits_to_Z (low_bits n x) = x mod 2 ^ Z.of_nat n.
Proof.
  unfold low_bits. induction n as [|n IH].
  - cbn. now rewrite Z.mod_1_r.
  - rewrite seq_S, map_app, bits_to_Z_app, IH, length_map, length_seq.
    cbn [Nat.add map bits_to_Z].
    rewrite Nat2Z.inj_succ, Z.pow_succ_r by lia.
    rewrite (Z.mul_comm 2 (2 ^ Z.of_nat n)).
    rewrite Z.rem_mul_r by (try apply Z.pow_nonzero; lia).
    rewrite Z.testbit_spec' by lia. ring.
Qed.

Lemma land_bit (v i : Z) :
  0 <= i -> negb (Z.land v (Z.shiftl 1 i) =? 0) = Z.testbit v i.
Proof.
  intros Hi. rewrite Z.shiftl_1_l.
  destruct (Z.testbit v i) eqn:Hb.
  - apply negb_true_iff, Z.eqb_neq. intros H0.
    assert (Ht : Z.testbit (Z.land v (2 ^ i)) i = true).
    { rewrite Z.land_spec, Hb, Z.pow2_bits_true by lia. reflexivity. }
    rewrite H0, Z.bits_0 in Ht. discriminate.
  - apply negb_false_iff, Z.eqb_eq. apply Z.bits_inj'. intros n Hn.
    rewrite Z.land_spec, Z.bits_0, Z.pow2_bits_eqb by lia.
    destruct (Z.eqb_spec i n) as [->|]; [now rewrite Hb|].
    apply andb_false_r.
Qed.

Lemma land_1_bit (v : Z) : negb (Z.land v 1 =? 0) = Z.testbit v 0.
Proof. apply (land_bit v 0). lia. Qed.

(** ** Primitives *)

Lemma digitalWrite_inert (pin : Z) (v : bool) (s : Board) :
  pin <> SHIFT_CLK -> pin <> SHIFT_LATCH -> pin <> WRITE_EN ->
  exec (digitalWrite pin v) s
  = mkBoard (mode s) (upd (level s) pin v) (shift_reg s) (latched s)
            (mem s) (pulses s).
Proof.
  intros H1 H2 H3. unfold exec, digitalWrite; cbn [snd].
  apply Z.eqb_neq in H1, H2, H3. now rewrite H1, H2, H3.
Qed.

Lemma digitalWrite_LOW (pin : Z) (s : Board) :
  exec (digitalWrite pin LOW) s
  = mkBoard (mode s) (upd (level s) pin LOW) (shift_reg s) (latched s)
            (mem s) (pulses s).
Proof.
  unfold exec, digitalWrite, LOW; cbn [snd].
  now rewrite !andb_false_r, ?andb_false_l.
Qed.

Lemma digitalWrite_clk_HIGH (s : Board) :
  mode s SHIFT_CLK = OUTPUT -> level s SHIFT_CLK = LOW ->
  exec (digitalWrite SHIFT_CLK HIGH) s
  = mkBoard (mode s) (upd (level s) SHIFT_CLK HIGH)
            (firstn 16 (level s SHIFT_DATA :: shift_reg s)) (latched s)
            (mem s) (pulses s).
Proof.
  intros Hm Hl. unfold exec, digitalWrite; cbn [snd].
  now rewrite Hm, Hl.
Qed.

Lemma digitalWrite_latch_HIGH (s : Board) :
  mode s SHIFT_LATCH = OUTPUT -> level s SHIFT_LATCH = LOW ->
  exec (digitalWrite SHIFT_LATCH HIGH) s
  = mkBoard (mode s) (upd (level s) SHIFT_LATCH HIGH)
            (shift_reg s) (shift_reg s) (mem s) (pulses s).
Proof.
  intros Hm Hl. unfold exec, digitalWrite; cbn [snd].
  now rewrite Hm, Hl.
Qed.

Lemma digitalWrite_we_HIGH (s : Board) :
  mode s WRITE_EN = OUTPUT -> level s WRITE_EN = LOW ->
  oe_disabled s = true ->
  exec (digitalWrite WRITE_EN HIGH) s
  = mkBoard (mode s) (upd (level s) WRITE_EN HIGH)
            (shift_reg s) (latched s)
            (upd (mem s) (addr_lines s) (data_bus s))
            (pulses s ++ [(addr_lines s, data_bus s)]).
Proof.
  intros Hm Hl Hoe. unfold exec, digitalWrite; cbn [snd].
  now rewrite Hm, Hl, Hoe.
Qed.

Lemma upd_same {A : Type} (f : Z -> A) k v : upd f k v k = v.
Proof. unfold upd. now rewrite Z.eqb_refl. Qed.

Lemma upd_other {A : Type} (f : Z -> A) k v x : x <> k -> upd f k v x = f x.
Proof. unfold upd. intros H. apply Z.eqb_neq in H. now rewrite H. Qed.

(** ** The shift registers *)

Lemma firstn_app_firstn {A : Type} (n m : nat) (l l' : list A) :
  (n <= m)%nat -> firstn n (l ++ firstn m l') = firstn n (l ++ l').
Proof.
  revert n; induction l as [|x l IH]; intros n Hn; cbn [app].
  - rewrite firstn_firstn. f_equal. lia.
  - destruct n as [|n]; [reflexivity|]. cbn [firstn]. f_equal.
    apply IH. lia.
Qed.

(** Clocking a list of bits into the registers. *)
Lemma shift_loop_spec (f : Z -> bool) (l : list Z) (s : Board) :
  mode s SHIFT_CLK = OUTPUT -> level s SHIFT_CLK = LOW ->
  let s' := exec (for_each l (fun i =>
                    digitalWrite SHIFT_DATA (f i) ;;
                    digitalWrite SHIFT_CLK HIGH ;;
                    digitalWrite SHIFT_CLK LOW)) s in
  mode s' = mode s /\ level s' SHIFT_CLK = LOW /\
  (forall q, q <> SHIFT_DATA -> q <> SHIFT_CLK -> level s' q = level s q) /\
  shift_reg s' = match l with
                 | [] => shift_reg s
                 | _ => firstn 16 (rev (map f l) ++ shift_reg s)
                 end /\
  latched s' = latched s /\ mem s' = mem s /\ pulses s' = pulses s.
Proof.
  revert s; induction l as [|i l IH]; intros s Hm Hl.
  - cbn. repeat split; try reflexivity; assumption.
  - cbv zeta. rewrite exec_for_each_cons, !exec_bind.
    rewrite (digitalWrite_inert SHIFT_DATA) by pins.
    rewrite digitalWrite_clk_HIGH by (cbn; assumption).
    rewrite digitalWrite_LOW. cbn [mode level shift_reg latched mem pulses].
    match goal with |- context [exec _ ?t] => specialize (IH t) end.
    cbv zeta in IH. cbn [mode level shift_reg latched mem pulses] in IH.
    destruct IH as (E1 & E2 & E3 & E4 & E5 & E6 & E7);
      [assumption | apply upd_same |].
    repeat split; try assumption.
    + intros q Hq1 Hq2. rewrite E3 by assumption.
      now rewrite !upd_other by assumption.
    + rewrite E4. cbn [map rev]. rewrite upd_same.
      destruct l as [|j l]; [reflexivity|].
      rewrite firstn_app_firstn by lia. now rewrite <- app_assoc.
Qed.

Lemma shiftOut_bits (v : Z) :
  rev (map (fun i => negb (Z.land v (Z.shiftl 1 (7 - i)) =? 0)) (range 0 7))
  = low_bits 8 v.
Proof.
  change (range 0 7) with [0; 1; 2; 3; 4; 5; 6; 7].
  unfold low_bits. cbn [map rev app seq].
  rewrite !land_bit by lia. reflexivity.
Qed.

Lemma shiftOut_spec (val : Z) (s : Board) :
  mode s SHIFT_CLK = OUTPUT -> level s SHIFT_CLK = LOW ->
  let s' := exec (shiftOut SHIFT_DATA SHIFT_CLK val) s in
  mode s' = mode s /\ level s' SHIFT_CLK = LOW /\
  (forall q, q <> SHIFT_DATA -> q <> SHIFT_CLK -> level s' q = level s q) /\
  shift_reg s' = firstn 16 (low_bits 8 (to_byte val) ++ shift_reg s) /\
  latched s' = latched s /\ mem s' = mem s /\ pulses s' = pulses s.
Proof.
  intros Hm Hl. unfold shiftOut. cbv zeta.
  pose proof (shift_loop_spec
    (fun i => negb (Z.land (to_byte val) (Z.shiftl 1 (7 - i)) =? 0))
    (range 0 7) s Hm Hl) as H.
  cbv zeta in H. rewrite shiftOut_bits in H.
  change (range 0 7) with [0; 1; 2; 3; 4; 5; 6; 7] in H at 2.
  exact H.
Qed.

Lemma bus_word_shifted (address : Z) (oe : bool) (reg : list bool) :
  firstn 16 (low_bits 8 (to_byte address) ++
             firstn 16 (low_bits 8 (to_byte
               (Z.lor (Z.shiftr address 8) (if oe then 0x00 else 0x80)))
               ++ reg))
  = bus_word address oe.
Proof.
  rewrite firstn_app_firstn by lia. reflexivity.
Qed.

Lemma setAddress_spec (address : Z) (oe : bool) (s : Board) :
  mode s SHIFT_CLK = OUTPUT -> mode s SHIFT_LATCH = OUTPUT ->
  level s SHIFT_CLK = LOW ->
  let s' := exec (setAddress address oe) s in
  mode s' = mode s /\ level s' SHIFT_CLK = LOW /\
  level s' SHIFT_LATCH = LOW /\
  (forall q, q <> SHIFT_DATA -> q <> SHIFT_CLK -> q <> SHIFT_LATCH ->
             level s' q = level s q) /\
  latched s' = bus_word address oe /\
  mem s' = mem s /\ pulses s' = pulses s.
Proof.
  intros Hc Hla Hl. unfold setAddress. cbv zeta. rewrite !exec_bind.
  destruct (shiftOut_spec
              (Z.lor (Z.shiftr address 8) (if oe then 0x00 else 0x80))
              s Hc Hl) as (A1 & A2 & A3 & A4 & A5 & A6 & A7).
  set (s1 := exec (shiftOut _ _ (Z.lor _ _)) s) in *. clearbody s1.
  assert (Hc1 : mode s1 SHIFT_CLK = OUTPUT) by now rewrite A1.
  destruct (shiftOut_spec address s1 Hc1 A2)
    as (B1 & B2 & B3 & B4 & B5 & B6 & B7).
  set (s2 := exec (shiftOut _ _ address) s1) in *. clearbody s2.
  rewrite (digitalWrite_LOW SHIFT_LATCH s2).
  rewrite digitalWrite_latch_HIGH;
    [| cbn [mode]; now rewrite B1, A1 | cbn [level]; apply upd_same].
  rewrite digitalWrite_LOW.
  cbn [mode level shift_reg latched mem pulses].
  repeat apply conj.
  - now rewrite B1.
  - rewrite !upd_other by pins. exact B2.
  - apply upd_same.
  - intros q H1 H2 H3. rewrite !upd_other by assumption.
    rewrite B3, A3 by assumption. reflexivity.
  - rewrite B4, A4. apply bus_word_shifted.
  - now rewrite B6.
  - now rewrite B7.
Qed.

(** ** What the chip sees after [setAddress] *)

Lemma mod_pow2_mod_pow2 (x a b : Z) :
  0 <= a <= b -> (x mod 2 ^ b) mod 2 ^ a = x mod 2 ^ a.
Proof.
  intros H. apply Z.bits_inj'. intros n Hn.
  destruct (Z.ltb_spec n a).
  - rewrite !Z.mod_pow2_bits_low by lia. reflexivity.
  - rewrite !Z.mod_pow2_bits_high by lia. reflexivity.
Qed.

Lemma lor_mod_low (h m n : Z) :
  0 <= n -> m mod 2 ^ n = 0 -> Z.lor h m mod 2 ^ n = h mod 2 ^ n.
Proof.
  intros Hn Hm. apply Z.bits_inj'. intros k Hk.
  destruct (Z.ltb_spec k n).
  - rewrite !Z.mod_pow2_bits_low, Z.lor_spec by lia.
    assert (E : Z.testbit m k = false).
    { rewrite <- (Z.mod_pow2_bits_low m n k), Hm by lia. apply Z.bits_0. }
    rewrite E. apply orb_false_r.
  - rewrite !Z.mod_pow2_bits_high by lia. reflexivity.
Qed.

Lemma firstn_bus_word (address : Z) (oe : bool) :
  firstn 15 (bus_word address oe)
  = low_bits 8 (to_byte address) ++
    low_bits 7 (to_byte (Z.lor (Z.shiftr address 8)
                               (if oe then 0x00 else 0x80))).
Proof. reflexivity. Qed.

Lemma bus_word_addr (address : Z) (oe : bool) :
  0 <= address < 32768 ->
  bits_to_Z (firstn 15 (bus_word address oe)) = address.
Proof.
  intros H. rewrite firstn_bus_word, bits_to_Z_app, !bits_to_Z_low_bits.
  unfold low_bits at 1. rewrite length_map, length_seq.
  unfold to_byte.
  change 256 with (2 ^ 8) at 1 2.
  change (Z.of_nat 8) with 8. change (Z.of_nat 7) with 7.
  rewrite (mod_pow2_mod_pow2 _ 8 8), (mod_pow2_mod_pow2 _ 7 8) by lia.
  rewrite lor_mod_low by (destruct oe; first [lia | reflexivity]).
  rewrite Z.shiftr_div_pow2 by lia.
  change (2 ^ 8) with 256. change (2 ^ 7) with 128.
  rewrite (Z.mod_small (address / 256) 128)
    by (split; [apply Z.div_pos; lia | apply Z.div_lt_upper_bound; lia]).
  pose proof (Z.div_mod address 256). lia.
Qed.

Lemma bus_word_oe (address : Z) (oe : bool) :
  0 <= address < 32768 ->
  nth 15 (bus_word address oe) false = negb oe.
Proof.
  intros H. unfold bus_word, low_bits. cbn [seq map app nth].
  change (Z.of_nat 7) with 7. unfold to_byte. change 256 with (2 ^ 8).
  rewrite Z.mod_pow2_bits_low, Z.lor_spec, Z.shiftr_spec by lia.
  change (7 + 8) with 15.
  assert (E : Z.testbit address 15 = false).
  { destruct (Z.eq_dec address 0) as [->|]; [apply Z.bits_0|].
    apply Z.bits_above_log2; [lia|].
    apply Z.log2_lt_pow2; lia. }
  rewrite E. destruct oe; reflexivity.
Qed.

(** ** Data lines *)

Lemma pinMode_loop_spec (l : list Z) (m : PinMode) (s : Board) :
  let s' := exec (for_each l (fun pin => pinMode pin m)) s in
  (forall q, In q l -> mode s' q = m) /\
  (forall q, ~ In q l -> mode s' q = mode s q) /\
  level s' = level s /\ shift_reg s' = shift_reg s /\
  latched s' = latched s /\ mem s' = mem s /\ pulses s' = pulses s.
Proof.
  revert s; induction l as [|p l IH]; intros s; cbv zeta.
  - cbn. repeat apply conj; try reflexivity. intros q [].
  - rewrite exec_for_each_cons.
    specialize (IH (exec (pinMode p m) s)). cbv zeta in IH.
    destruct IH as (E1 & E2 & E3 & E4 & E5 & E6 & E7).
    repeat apply conj; try assumption.
    + intros q Hq. destruct (in_dec Z.eq_dec q l) as [Hi|Hn].
      * now apply E1.
      * rewrite E2 by assumption. destruct Hq as [->|Hq]; [|contradiction].
        apply upd_same.
    + intros q Hq. rewrite E2 by (intros Hi; apply Hq; now right).
      apply upd_other. intros ->. apply Hq. now left.
Qed.

Lemma data_pin_range (q : Z) : In q data_pins <-> 5 <= q <= 12.
Proof. apply in_range. Qed.

Lemma NoDup_range (lo hi : Z) : NoDup (range lo hi).
Proof.
  unfold range. apply NoDup_map_inv with (f := fun x => Z.to_nat (x - lo)).
  rewrite map_map. erewrite map_ext; [rewrite map_id; apply seq_NoDup|].
  intros i; cbv beta. lia.
Qed.

(** The loop of [writeEEPROM] that puts [data] on the data lines. *)
Lemma drive_loop_spec (ps : list Z) (data : Z) (s : Board) :
  (forall p, In p ps ->
             p <> SHIFT_CLK /\ p <> SHIFT_LATCH /\ p <> WRITE_EN) ->
  NoDup ps ->
  let s' := exec (for_acc ps data (fun pin data =>
                    digitalWrite pin (negb (Z.land data 1 =? 0)) ;;
                    ret (Z.shiftr data 1))) s in
  mode s' = mode s /\
  (forall q, ~ In q ps -> level s' q = level s q) /\
  map (level s') ps = low_bits (length ps) data /\
  shift_reg s' = shift_reg s /\ latched s' = latched s /\
  mem s' = mem s /\ pulses s' = pulses s.
Proof.
  revert data s; induction ps as [|p ps IH]; intros data s Hin Hnd; cbv zeta.
  - cbn. repeat apply conj; reflexivity.
  - rewrite exec_for_acc_cons, exec_bind, eval_bind, exec_ret, eval_ret.
    destruct (Hin p (or_introl eq_refl)) as (P1 & P2 & P3).
    rewrite digitalWrite_inert by assumption.
    inversion Hnd as [|? ? Hnotin Hnd']; subst.
    match goal with |- context [exec (for_acc ps ?d _) ?t] =>
      specialize (IH d t (fun q Hq => Hin q (or_intror Hq)) Hnd') end.
    cbv zeta in IH. cbn [mode level shift_reg latched mem pulses] in IH.
    destruct IH as (E1 & E2 & E3 & E4 & E5 & E6 & E7).
    repeat apply conj; try assumption.
    + intros q Hq. rewrite E2 by (intros Hi; apply Hq; now right).
      apply upd_other. intros ->. apply Hq. now left.
    + cbn [map length]. rewrite E3, E2 by assumption. rewrite upd_same.
      unfold low_bits. cbn [seq map]. f_equal; [apply land_1_bit|].
      rewrite <- seq_shift, map_map. apply map_ext. intros k.
      rewrite Z.shiftr_spec by lia. f_equal. lia.
Qed.

Lemma bits_to_Z_bound (bs : list bool) :
  0 <= bits_to_Z bs < 2 ^ Z.of_nat (length bs).
Proof.
  induction bs as [|b bs IH]; cbn [bits_to_Z length].
  - change (2 ^ Z.of_nat 0) with 1. lia.
  - rewrite Nat2Z.inj_succ, Z.pow_succ_r by lia. destruct b; cbn [Z.b2z]; lia.
Qed.

(** The loop of [readEEPROM] composes the bits most significant first. *)
Lemma compose_bits (bs : list bool) :
  (length bs <= 8)%nat ->
  fold_left (fun data b => to_byte (Z.shiftl data 1 + Z.b2z b)) (rev bs) 0
  = bits_to_Z bs.
Proof.
  induction bs as [|b bs IH]; intros Hlen; [reflexivity|].
  cbn [rev length] in *. rewrite fold_left_app. cbn [fold_left].
  rewrite IH by lia. rewrite Z.shiftl_mul_pow2 by lia.
  change (2 ^ 1) with 2. cbn [bits_to_Z]. unfold to_byte.
  pose proof (bits_to_Z_bound bs) as Hb.
  assert (2 ^ Z.of_nat (length bs) <= 2 ^ 7)
    by (apply Z.pow_le_mono_r; lia).
  change (2 ^ 7) with 128 in *.
  rewrite Z.mod_small; destruct b; cbn [Z.b2z]; lia.
Qed.

Lemma read_loop_spec (ps : list Z) (acc : Z) (s : Board) :
  (forall p, In p ps -> mode s p = INPUT /\ 5 <= p <= 12) ->
  oe_disabled s = false ->
  let m := for_acc ps acc (fun pin data =>
             b <- digitalRead pin ;;
             ret (to_byte (Z.shiftl data 1 + b))) in
  exec m s = s /\
  eval m s = fold_left (fun data b => to_byte (Z.shiftl data 1 + Z.b2z b))
               (map (fun p => Z.testbit (mem s (addr_lines s)) (p - 5)) ps)
               acc.
Proof.
  intros Hps Hoe. revert acc; induction ps as [|p ps IH]; intros acc.
  - split; reflexivity.
  - cbv zeta. rewrite exec_for_acc_cons, eval_for_acc_cons.
    destruct (Hps p (or_introl eq_refl)) as (Hm & Hr).
    assert (Ex : exec (b <- digitalRead p ;;
                       ret (to_byte (Z.shiftl acc 1 + b))) s = s)
      by reflexivity.
    assert (Ev : eval (b <- digitalRead p ;;
                       ret (to_byte (Z.shiftl acc 1 + b))) s
                 = to_byte (Z.shiftl acc 1 +
                     Z.b2z (Z.testbit (mem s (addr_lines s)) (p - 5)))).
    { unfold eval, bind, digitalRead, ret; cbn [fst].
      rewrite Hm, Hoe.
      replace (EEPROM_D0 <=? p) with true
        by (symmetry; apply Z.leb_le; unfold EEPROM_D0; lia).
      replace (p <=? EEPROM_D7) with true
        by (symmetry; apply Z.leb_le; unfold EEPROM_D7; lia).
      reflexivity. }
    rewrite Ex, Ev. cbn [map fold_left].
    apply IH. intros q Hq. apply Hps. now right.
Qed.

(** ** The driver operations *)

Lemma exec_delay (ms : Z) (s : Board) : exec (delay ms) s = s.
Proof. reflexivity. Qed.

Lemma exec_delayMicroseconds (us : Z) (s : Board) :
  exec (delayMicroseconds us) s = s.
Proof. reflexivity. Qed.

Lemma bus_word_addr_mod (address : Z) (oe : bool) :
  bits_to_Z (firstn 15 (bus_word address oe)) = address mod 32768.
Proof.
  rewrite firstn_bus_word, bits_to_Z_app, !bits_to_Z_low_bits.
  unfold low_bits at 1. rewrite length_map, length_seq.
  unfold to_byte.
  change 256 with (2 ^ 8) at 1 2.
  change (Z.of_nat 8) with 8. change (Z.of_nat 7) with 7.
  rewrite (mod_pow2_mod_pow2 _ 8 8), (mod_pow2_mod_pow2 _ 7 8) by lia.
  rewrite lor_mod_low by (destruct oe; first [lia | reflexivity]).
  rewrite Z.shiftr_div_pow2 by lia.
  change 32768 with (2 ^ 8 * 2 ^ 7).
  rewrite Z.rem_mul_r by lia. reflexivity.
Qed.

Lemma bus_word_write_oe (address : Z) :
  nth 15 (bus_word address false) false = true.
Proof.
  unfold bus_word, low_bits. cbn [seq map app nth].
  change (Z.of_nat 7) with 7. unfold to_byte. change 256 with (2 ^ 8).
  rewrite Z.mod_pow2_bits_low, Z.lor_spec by lia.
  apply orb_true_r.
Qed.

Lemma map_upd_other {A : Type} (f : Z -> A) k v (l : list Z) :
  ~ In k l -> map (upd f k v) l = map f l.
Proof.
  intros H. apply map_ext_in. intros x Hx. apply upd_other.
  intros ->. contradiction.
Qed.

Lemma data_pins_inert (p : Z) :
  In p data_pins ->
  p <> SHIFT_DATA /\ p <> SHIFT_CLK /\ p <> SHIFT_LATCH /\ p <> WRITE_EN.
Proof.
  intros H. apply data_pin_range in H.
  unfold SHIFT_DATA, SHIFT_CLK, SHIFT_LATCH, WRITE_EN. lia.
Qed.

Lemma control_not_data (q : Z) :
  q = SHIFT_CLK \/ q = SHIFT_LATCH \/ q = WRITE_EN -> ~ In q data_pins.
Proof.
  intros H Hin. apply data_pins_inert in Hin. intuition congruence.
Qed.

(** The write pulse that closes [writeEEPROM]. *)
Lemma write_pulse_spec (s : Board) :
  mode s WRITE_EN = OUTPUT -> oe_disabled s = true ->
  let s' := exec (digitalWrite WRITE_EN LOW ;;
                  delayMicroseconds 1 ;;
                  digitalWrite WRITE_EN HIGH ;;
                  delay 10) s in
  mode s' = mode s /\ level s' WRITE_EN = HIGH /\
  (forall q, q <> WRITE_EN -> level s' q = level s q) /\
  mem s' = upd (mem s) (addr_lines s) (data_bus s) /\
  pulses s' = pulses s ++ [(addr_lines s, data_bus s)].
Proof.
  intros Hm Hoe. cbv zeta. rewrite !exec_bind.
  rewrite exec_delay, exec_delayMicroseconds.
  rewrite (digitalWrite_LOW WRITE_EN s).
  rewrite digitalWrite_we_HIGH; [| exact Hm | apply upd_same | exact Hoe].
  unfold addr_lines, data_bus.
  cbn [mode level shift_reg latched mem pulses].
  rewrite map_upd_other by (apply control_not_data; auto).
  repeat apply conj; try reflexivity.
  intros q Hq. now rewrite !upd_other by assumption.
Qed.

(** One write cycle: the addressed cell takes the byte, nothing else in the
    memory changes, and the control lines are back at rest. *)
Lemma writeEEPROM_spec (address data : Z) (s : Board) :
  bus_ok s ->
  let s' := exec (writeEEPROM address data) s in
  bus_ok s' /\
  mem s' = upd (mem s) (address mod 32768) (to_byte data) /\
  pulses s' = pulses s ++ [(address mod 32768, to_byte data)].
Proof.
  intros (M1 & M2 & M3 & L1 & L2 & L3).
  unfold writeEEPROM. cbv zeta.
  rewrite exec_bind, exec_bind, exec_bind.
  destruct (setAddress_spec address false s M1 M2 L1)
    as (A1 & A2 & A3 & A4 & A5 & A6 & A7).
  set (s1 := exec (setAddress address false) s) in *. clearbody s1.
  destruct (pinMode_loop_spec (range EEPROM_D0 EEPROM_D7) OUTPUT s1)
    as (B1 & B2 & B3 & B4 & B5 & B6 & B7).
  set (s2 := exec (for_each (range EEPROM_D0 EEPROM_D7) _) s1) in *.
  clearbody s2.
  destruct (drive_loop_spec (range EEPROM_D0 EEPROM_D7) (to_byte data) s2)
    as (C1 & C2 & C3 & C4 & C5 & C6 & C7).
  { intros p Hp. apply data_pins_inert in Hp. tauto. }
  { apply NoDup_range. }
  set (s3 := exec (for_acc (range EEPROM_D0 EEPROM_D7) _ _) s2) in *.
  clearbody s3.
  assert (Hm : forall q, ~ In q data_pins -> mode s3 q = mode s q).
  { intros q Hq. rewrite C1, B2, A1 by exact Hq. reflexivity. }
  assert (Hl : forall q, ~ In q data_pins -> q <> SHIFT_DATA ->
                         q <> SHIFT_CLK -> q <> SHIFT_LATCH ->
                         level s3 q = level s q).
  { intros q Hq H1 H2 H3. rewrite C2, B3, A4 by assumption. reflexivity. }
  destruct (write_pulse_spec s3) as (D1 & D2 & D3 & D4 & D5).
  { rewrite Hm by (apply control_not_data; auto). exact M3. }
  { unfold oe_disabled. rewrite C5, B5, A5. apply bus_word_write_oe. }
  set (s4 := exec (_ ;; _) s3) in *. clearbody s4.
  assert (Ea : addr_lines s3 = address mod 32768).
  { unfold addr_lines. rewrite C5, B5, A5. apply bus_word_addr_mod. }
  assert (Ed : data_bus s3 = to_byte data).
  { unfold data_bus. fold data_pins in C3. rewrite C3, bits_to_Z_low_bits.
    change (2 ^ Z.of_nat (length data_pins)) with 256.
    unfold to_byte. apply Z.mod_mod. lia. }
  rewrite Ea, Ed in D4, D5. rewrite C6, B6, A6 in D4. rewrite C7, B7, A7 in D5.
  unfold bus_ok. rewrite D1, D2, !D3 by pins.
  rewrite !Hm by (apply control_not_data; auto).
  rewrite C2 by (apply control_not_data; auto).
  rewrite C2 by (apply control_not_data; auto).
  rewrite B3.
  repeat apply conj; first [assumption | reflexivity].
Qed.

Lemma read_loop_exec (ps : list Z) (acc : Z) (s : Board) :
  exec (for_acc ps acc (fun pin data =>
          b <- digitalRead pin ;;
          ret (to_byte (Z.shiftl data 1 + b)))) s = s.
Proof.
  revert acc; induction ps as [|p ps IH]; intros acc; [reflexivity|].
  rewrite exec_for_acc_cons.
  change (exec (b <- digitalRead p ;; ret (to_byte (Z.shiftl acc 1 + b))) s)
    with s.
  apply IH.
Qed.

(** A read leaves the memory and the write trace alone and the control
    lines at rest. *)
Lemma readEEPROM_frame (address : Z) (s : Board) :
  bus_ok s ->
  let s' := exec (readEEPROM address) s in
  bus_ok s' /\ mem s' = mem s /\ pulses s' = pulses s.
Proof.
  intros (M1 & M2 & M3 & L1 & L2 & L3).
  unfold readEEPROM. cbv zeta. rewrite !exec_bind, read_loop_exec.
  destruct (pinMode_loop_spec (range EEPROM_D0 EEPROM_D7) INPUT s)
    as (B1 & B2 & B3 & B4 & B5 & B6 & B7).
  set (s1 := exec (for_each (range EEPROM_D0 EEPROM_D7) _) s) in *. clearbody s1.
  fold data_pins in B1, B2.
  assert (N1 : mode s1 SHIFT_CLK = OUTPUT)
    by (rewrite B2 by (apply control_not_data; auto); exact M1).
  assert (N2 : mode s1 SHIFT_LATCH = OUTPUT)
    by (rewrite B2 by (apply control_not_data; auto); exact M2).
  assert (N3 : level s1 SHIFT_CLK = LOW) by (rewrite B3; exact L1).
  destruct (setAddress_spec address true s1 N1 N2 N3)
    as (A1 & A2 & A3 & A4 & A5 & A6 & A7).
  set (s2 := exec (setAddress address true) s1) in *. clearbody s2.
  unfold bus_ok. rewrite A1, A2, A3, A6, A7, (A4 WRITE_EN), B3 by pins.
  rewrite !B2 by (apply control_not_data; auto).
  repeat apply conj; first [assumption | reflexivity].
Qed.

(** A read returns the byte of the addressed cell. *)
Lemma readEEPROM_value (address : Z) (s : Board) :
  bus_ok s -> 0 <= address < 32768 ->
  eval (readEEPROM address) s = mem s address mod 256.
Proof.
  intros (M1 & M2 & M3 & L1 & L2 & L3) Ha.
  unfold readEEPROM. rewrite !eval_bind.
  destruct (pinMode_loop_spec (range EEPROM_D0 EEPROM_D7) INPUT s)
    as (B1 & B2 & B3 & B4 & B5 & B6 & B7).
  set (s1 := exec (for_each (range EEPROM_D0 EEPROM_D7) _) s) in *. clearbody s1.
  fold data_pins in B1, B2.
  assert (N1 : mode s1 SHIFT_CLK = OUTPUT)
    by (rewrite B2 by (apply control_not_data; auto); exact M1).
  assert (N2 : mode s1 SHIFT_LATCH = OUTPUT)
    by (rewrite B2 by (apply control_not_data; auto); exact M2).
  assert (N3 : level s1 SHIFT_CLK = LOW) by (rewrite B3; exact L1).
  destruct (setAddress_spec address true s1 N1 N2 N3)
    as (A1 & A2 & A3 & A4 & A5 & A6 & A7).
  set (s2 := exec (setAddress address true) s1) in *. clearbody s2.
  destruct (read_loop_spec (rev (range EEPROM_D0 EEPROM_D7)) 0 s2) as (_ & E).
  { intros p Hp. apply in_rev in Hp. fold data_pins in Hp. split.
    - rewrite A1. now apply B1.
    - now apply data_pin_range. }
  { unfold oe_disabled. rewrite A5, bus_word_oe by assumption. reflexivity. }
  cbv zeta in E. rewrite E. unfold addr_lines.
  rewrite A5, bus_word_addr, A6, B6 by assumption.
  rewrite map_rev.
  change (map (fun p => Z.testbit (mem s address) (p - 5))
              (range EEPROM_D0 EEPROM_D7))
    with (low_bits 8 (mem s address)).
  rewrite compose_bits by (unfold low_bits; rewrite length_map, length_seq; lia).
  apply bits_to_Z_low_bits.
Qed.

Lemma init_pins_ok (reg lat : list bool) (m : Z -> Z) :
  let s := exec init_pins (power_on reg lat m) in
  bus_ok s /\ mem s = m /\ pulses s = [].
Proof.
  cbv zeta. unfold bus_ok. repeat apply conj; reflexivity.
Qed.

(** ** Sequencing write cycles *)

Lemma apply_writes_app (ws1 ws2 : list (Z * Z)) (m : Z -> Z) :
  apply_writes (ws1 ++ ws2) m = apply_writes ws2 (apply_writes ws1 m).
Proof.
  revert m; induction ws1 as [|[a d] ws1 IH]; intros m; [reflexivity|].
  cbn [app apply_writes]. apply IH.
Qed.

Lemma apply_writes_last (ws : list (Z * Z)) (m : Z -> Z) (a : Z) :
  apply_writes ws m a
  = match last_write ws a with Some v => v | None => m a end.
Proof.
  revert m; induction ws as [|[a' d] ws IH]; intros m; [reflexivity|].
  cbn [apply_writes last_write]. rewrite IH.
  destruct (last_write ws a); [reflexivity|].
  unfold upd. now destruct (a =? a').
Qed.

Lemma last_write_app (ws1 ws2 : list (Z * Z)) (a : Z) :
  last_write (ws1 ++ ws2) a
  = match last_write ws2 a with
    | Some v => Some v
    | None => last_write ws1 a
    end.
Proof.
  induction ws1 as [|[a' d] ws1 IH]; cbn [app last_write].
  - now destruct (last_write ws2 a).
  - rewrite IH. now destruct (last_write ws2 a).
Qed.

Lemma performs_ret {A : Type} (a : A) : performs (ret a) [].
Proof.
  intros s H. cbn [apply_writes]. rewrite app_nil_r. now rewrite exec_ret.
Qed.

Lemma performs_bind {A B : Type} (m : M A) (k : A -> M B) ws1 ws2 :
  performs m ws1 -> (forall a, performs (k a) ws2) ->
  performs (bind m k) (ws1 ++ ws2).
Proof.
  intros Hm Hk s Hs. rewrite exec_bind.
  destruct (Hm s Hs) as (E1 & E2 & E3).
  destruct (Hk (eval m s) (exec m s) E1) as (F1 & F2 & F3).
  split; [exact F1 | split].
  - now rewrite F2, E2, apply_writes_app.
  - now rewrite F3, E3, app_assoc.
Qed.

Lemma performs_for_each {A : Type} (l : list A) body (f : A -> list (Z * Z)) :
  (forall x, In x l -> performs (body x) (f x)) ->
  performs (for_each l body) (flat_map f l).
Proof.
  induction l as [|x l IH]; intros H; cbn [for_each flat_map].
  - apply performs_ret.
  - apply performs_bind.
    + apply H. now left.
    + intros _. apply IH. intros y Hy. apply H. now right.
Qed.

Lemma performs_for_acc_quiet {A B : Type} (l : list A) (acc : B) body :
  (forall x acc, performs (body x acc) []) ->
  performs (for_acc l acc body) [].
Proof.
  intros H. revert acc; induction l as [|x l IH]; intros acc; cbn [for_acc].
  - apply performs_ret.
  - change (@nil (Z * Z)) with (@nil (Z * Z) ++ []).
    apply performs_bind; [apply H | intros a; apply IH].
Qed.

Lemma performs_writeEEPROM (address data : Z) :
  performs (writeEEPROM address data) [(address mod 32768, to_byte data)].
Proof. intros s Hs. apply writeEEPROM_spec, Hs. Qed.

Lemma performs_readEEPROM (address : Z) : performs (readEEPROM address) [].
Proof.
  intros s Hs. destruct (readEEPROM_frame address s Hs) as (E1 & E2 & E3).
  cbn [apply_writes]. rewrite app_nil_r. auto.
Qed.

Lemma performs_printContents : performs printContents [].
Proof.
  unfold printContents. apply performs_for_acc_quiet. intros base lines.
  change (@nil (Z * Z)) with (@nil (Z * Z) ++ []).
  apply performs_bind; [|intros; apply performs_ret].
  apply performs_for_acc_quiet. intros offset data.
  change (@nil (Z * Z)) with (@nil (Z * Z) ++ []).
  apply performs_bind; [apply performs_readEEPROM|intros; apply performs_ret].
Qed.

Lemma erase_writes_flat (l : list Z) :
  (forall a, In a l -> 0 <= a < 32768) ->
  flat_map (fun a => [(a mod 32768, to_byte 0xff)]) l
  = map (fun a => (a, 0xff)) l.
Proof.
  induction l as [|a l IH]; intros H; [reflexivity|].
  cbn [flat_map map app]. rewrite IH by (intros b Hb; apply H; now right).
  rewrite Z.mod_small by (apply H; now left). reflexivity.
Qed.

Lemma performs_erase : performs erase erase_writes.
Proof.
  unfold erase, erase_writes.
  rewrite <- erase_writes_flat by (intros a Ha; apply in_range in Ha; lia).
  apply performs_for_each. intros a _. apply performs_writeEEPROM.
Qed.

(** ** [writeInstruction] and [setup] as sequences of write cycles *)

Lemma flat_map_singleton {A B : Type} (g : A -> B) (l : list A) :
  flat_map (fun x => [g x]) l = map g l.
Proof. induction l as [|x l IH]; cbn; congruence. Qed.

Lemma flat_map_map {A B C : Type} (g : A -> B) (f : B -> list C)
  (l : list A) :
  flat_map f (map g l) = flat_map (fun x => f (g x)) l.
Proof. induction l as [|x l IH]; cbn; congruence. Qed.

Lemma performs_bind_val {A B : Type} (m : M A) (k : A -> M B) (v : A)
  ws1 ws2 :
  (forall s, eval m s = v) -> performs m ws1 -> performs (k v) ws2 ->
  performs (bind m k) (ws1 ++ ws2).
Proof.
  intros Hv Hm Hk s Hs. rewrite exec_bind, Hv.
  destruct (Hm s Hs) as (E1 & E2 & E3).
  destruct (Hk (exec m s) E1) as (F1 & F2 & F3).
  split; [exact F1 | split].
  - now rewrite F2, E2, apply_writes_app.
  - now rewrite F3, E3, app_assoc.
Qed.

Lemma performs_seq {A B : Type} (m : M A) (k : M B) ws1 ws2 :
  performs m ws1 -> performs k ws2 -> performs (m ;; k) (ws1 ++ ws2).
Proof. intros Hm Hk. apply performs_bind; [exact Hm | intros _; exact Hk]. Qed.

Lemma mask_instruction_idem (x : Z) :
  to_byte (Z.land (to_byte (Z.land x 0x00F)) 0x00F)
  = to_byte (Z.land x 0x00F).
Proof.
  unfold to_byte.
  assert (H : 0 <= Z.land x 15 < 16).
  { change 15 with (Z.ones 4). rewrite Z.land_ones by lia.
    apply Z.mod_pos_bound. reflexivity. }
  rewrite !(Z.mod_small (Z.land x 15) 256) by lia.
  rewrite <- Z.land_assoc. change (Z.land 15 15) with 15.
  apply Z.mod_small. lia.
Qed.

Lemma performs_writeInstruction_control_rom (b o t_start : Z)
  (ops : list Z) :
  performs (ControlRom.writeInstruction o t_start ops)
           (step_writes (control_rom b) (o, t_start, ops)).
Proof.
  unfold step_writes. cbn [address_of].
  unfold ControlRom.writeInstruction, ControlRom.address. cbv zeta.
  rewrite <- flat_map_singleton.
  apply performs_for_each. intros t _. apply performs_writeEEPROM.
Qed.

Lemma performs_writeInstruction_part_000 (b o t_start : Z) (ops : list Z) :
  performs (Part000.writeInstruction o t_start ops)
           (step_writes (part_000 b) (o, t_start, ops)).
Proof.
  unfold step_writes. cbn [address_of].
  unfold Part000.writeInstruction, Part000.address. cbv zeta.
  change (range 0 2) with [0; 1; 2]. cbn [for_acc map].
  rewrite <- (app_nil_r [_; _; _]).
  apply performs_seq; [|apply performs_ret].
  set (i := to_byte (Z.land (to_byte o) 15)).
  apply (performs_bind_val _ _ i [_] [_; _]).
  { intros s. rewrite eval_bind. reflexivity. }
  { rewrite <- (app_nil_r [_]).
    apply performs_seq; [apply performs_writeEEPROM | apply performs_ret]. }
  assert (Hi : to_byte (Z.land i 15) = i) by apply mask_instruction_idem.
  apply (performs_bind_val _ _ i [_] [_]).
  { intros s. rewrite eval_bind, Hi. reflexivity. }
  { rewrite <- (app_nil_r [_]). rewrite Hi.
    apply performs_seq; [apply performs_writeEEPROM | apply performs_ret]. }
  apply (performs_bind_val _ _ i [_] []).
  { intros s. rewrite eval_bind, Hi. reflexivity. }
  { rewrite <- (app_nil_r [_]). rewrite Hi.
    apply performs_seq; [apply performs_writeEEPROM | apply performs_ret]. }
  apply performs_ret.
Qed.

Lemma performs_writeInstruction_part_001 (o t_start : Z) (ops : list Z) :
  performs (Part001.writeInstruction o t_start ops)
           (step_writes part_001 (o, t_start, ops)).
Proof.
  unfold step_writes. cbn [address_of].
  unfold Part001.writeInstruction, Part001.address. cbv zeta.
  rewrite <- flat_map_singleton.
  apply performs_for_each. intros t _. apply performs_writeEEPROM.
Qed.

Lemma performs_fetch_control_rom (b : Z) :
  performs (ControlRom.program_fetch b)
    (flat_map (fun i => step_writes (control_rom b) (i, 0, ControlRom.FETCH b))
              (range 0 15)).
Proof.
  unfold ControlRom.program_fetch.
  refine (performs_for_each (range 0 15) _ _ _).
  intros i _.
  exact (performs_writeInstruction_control_rom b i 0 (ControlRom.FETCH b)).
Qed.

Lemma performs_fetch_part_000 (b : Z) :
  performs (Part000.program_fetch b)
    (flat_map (fun i => step_writes (part_000 b) (i, 0, Part000.FETCH b))
              (range 0 15)).
Proof.
  unfold Part000.program_fetch.
  refine (performs_for_each (range 0 15) _ _ _).
  intros i _.
  exact (performs_writeInstruction_part_000 b i 0 (Part000.FETCH b)).
Qed.

Lemma performs_fetch_part_001 :
  performs Part001.program_fetch
           (step_writes part_001 (0, 0, Part001.FETCH)).
Proof. apply performs_writeInstruction_part_001. Qed.

Lemma performs_programming (r : Revision) :
  performs (programming r) (program_writes r).
Proof.
  unfold program_writes, programming.
  destruct r as [b|b|]; cbn [calls_of].
  - unfold ControlRom.calls. rewrite flat_map_app, flat_map_map.
    refine (performs_seq _ _ _ _ (performs_fetch_control_rom b) _).
    cbn [flat_map]. rewrite app_nil_r.
    unfold ControlRom.program_instructions.
    pose proof (performs_writeInstruction_control_rom b) as W.
    refine (performs_seq _ _ _ _ (W _ _ _) _).
    refine (performs_seq _ _ _ _ (W _ _ _) _).
    refine (performs_seq _ _ _ _ (W _ _ _) _).
    refine (performs_seq _ _ _ _ (W _ _ _) _).
    exact (W _ _ _).
  - unfold Part000.calls. rewrite flat_map_app, flat_map_map.
    refine (performs_seq _ _ _ _ (performs_fetch_part_000 b) _).
    cbn [flat_map]. rewrite app_nil_r.
    unfold Part000.program_instructions.
    pose proof (performs_writeInstruction_part_000 b) as W.
    refine (performs_seq _ _ _ _ (W _ _ _) _).
    refine (performs_seq _ _ _ _ (W _ _ _) _).
    refine (performs_seq _ _ _ _ (W _ _ _) _).
    refine (performs_seq _ _ _ _ (W _ _ _) _).
    exact (W _ _ _).
  - unfold Part001.calls. cbn [flat_map]. rewrite app_nil_r.
    refine (performs_seq _ _ _ _ performs_fetch_part_001 _).
    unfold Part001.program_instructions.
    pose proof performs_writeInstruction_part_001 as W.
    refine (performs_seq _ _ _ _ (W _ _ _) _).
    refine (performs_seq _ _ _ _ (W _ _ _) _).
    refine (performs_seq _ _ _ _ (W _ _ _) _).
    refine (performs_seq _ _ _ _ (W _ _ _) _).
    exact (W _ _ _).
Qed.

Lemma exec_setup_shape {A : Type} (i e f g : M unit) (p : M A) (s : Board) :
  exec (i ;; e ;; f ;; g ;; p) s = exec (e ;; (f ;; g) ;; p) (exec i s).
Proof.
  unfold exec, bind.
  destruct (i s) as [u1 s1]; cbn [snd].
  destruct (e s1) as [u2 s2]. destruct (f s2) as [u3 s3].
  destruct (g s3) as [u4 s4]. reflexivity.
Qed.

(** [setup] run from reset: its write cycles are those of the erase loop
    followed by those of the programming phase. *)
Lemma setup_image (r : Revision) (reg lat : list bool) (m : Z -> Z) :
  let s := exec (setup_of r) (power_on reg lat m) in
  bus_ok s /\
  mem s = apply_writes (erase_writes ++ program_writes r) m /\
  pulses s = erase_writes ++ program_writes r.
Proof.
  cbv zeta.
  assert (E : exec (setup_of r) (power_on reg lat m)
              = exec (erase ;;
                      programming r ;;
                      printContents)
                     (exec init_pins (power_on reg lat m))).
  { destruct r; cbn [setup_of programming];
      unfold ControlRom.setup, Part000.setup, Part001.setup;
      exact (exec_setup_shape _ _ _ _ _ _). }
  rewrite E. clear E.
  destruct (init_pins_ok reg lat m) as (I1 & I2 & I3).
  set (s0 := exec init_pins (power_on reg lat m)) in *. clearbody s0.
  assert (P : performs (erase ;;
                      programming r ;;
                      printContents)
                     (erase_writes ++ program_writes r ++ [])).
  { apply performs_seq; [apply performs_erase|].
    apply performs_seq; [apply performs_programming|].
    apply performs_printContents. }
  rewrite app_nil_r in P.
  destruct (P s0 I1) as (E1 & E2 & E3).
  rewrite I2 in E2. rewrite I3 in E3.
  split; [exact E1 | split; [exact E2 | exact E3]].
Qed.

(** ** The image [setup] leaves in the chip *)

Lemma last_write_const (l : list Z) (v a : Z) :
  last_write (map (fun a => (a, v)) l) a
  = if existsb (Z.eqb a) l then Some v else None.
Proof.
  induction l as [|x l IH]; [reflexivity|].
  cbn [map last_write existsb]. rewrite IH.
  destruct (existsb (Z.eqb a) l); [now rewrite orb_true_r|].
  rewrite orb_false_r. reflexivity.
Qed.

Lemma last_write_erase (a : Z) :
  0 <= a < 2048 -> last_write erase_writes a = Some 0xff.
Proof.
  intros H. unfold erase_writes. rewrite last_write_const.
  replace (existsb (Z.eqb a) (range 0 2047)) with true; [reflexivity|].
  symmetry. apply existsb_exists. exists a. split.
  - apply in_range. lia.
  - apply Z.eqb_refl.
Qed.

Lemma last_write_erase_outside (a : Z) :
  ~ 0 <= a < 2048 -> last_write erase_writes a = None.
Proof.
  intros H. unfold erase_writes. rewrite last_write_const.
  destruct (existsb (Z.eqb a) (range 0 2047)) eqn:E; [|reflexivity].
  apply existsb_exists in E. destruct E as (x & Hx & Hax).
  apply in_range in Hx. apply Z.eqb_eq in Hax. lia.
Qed.

Lemma last_write_None (ws : list (Z * Z)) (a : Z) :
  (forall d, ~ In (a, d) ws) -> last_write ws a = None.
Proof.
  induction ws as [|[a' d'] ws IH]; intros H; [reflexivity|].
  cbn [last_write]. rewrite IH by (intros d Hd; apply (H d); now right).
  destruct (Z.eqb_spec a a') as [->|]; [|reflexivity].
  exfalso. apply (H d'). now left.
Qed.

Lemma address_encode (r : Revision) (o t_start t : Z) :
  address_of r o t_start t = encode r o (t_start + t).
Proof.
  unfold encode. destruct r; cbn [address_of].
  - unfold ControlRom.address.
    now replace (0 + (t_start + t)) with (t + t_start) by lia.
  - unfold Part000.address. now rewrite Z.add_0_r.
  - unfold Part001.address. now rewrite Z.add_0_r.
Qed.

Lemma program_writes_programmed (r : Revision) :
  program_writes r
  = map (fun p : Z * Z * Z =>
           let '(o, n, v) := p in (encode r o n mod 32768, to_byte v))
        (programmed r).
Proof.
  unfold program_writes, programmed.
  induction (calls_of r) as [|[[o ts] ops] l IH]; [reflexivity|].
  cbn [flat_map]. rewrite map_app, <- IH. f_equal.
  unfold step_writes. rewrite map_map. apply map_ext. intros t.
  now rewrite address_encode.
Qed.

(** What a read after [setup] returns. *)
Lemma readback_eq (r : Revision) (reg lat : list bool) (m : Z -> Z) (a : Z) :
  0 <= a < 2048 ->
  readback r reg lat m a
  = match last_write (program_writes r) a with
    | Some v => v mod 256
    | None => 0xff
    end.
Proof.
  intros Ha. unfold readback.
  destruct (setup_image r reg lat m) as (E1 & E2 & _).
  rewrite readEEPROM_value by (try exact E1; lia).
  rewrite E2, apply_writes_last, last_write_app.
  destruct (last_write (program_writes r) a); [reflexivity|].
  now rewrite last_write_erase.
Qed.

Lemma mem_after_setup (r : Revision) (reg lat : list bool) (m : Z -> Z)
  (a : Z) :
  0 <= a < 2048 ->
  mem (exec (setup_of r) (power_on reg lat m)) a
  = match last_write (program_writes r) a with
    | Some v => v
    | None => 0xff
    end.
Proof.
  intros Ha. destruct (setup_image r reg lat m) as (_ & E2 & _).
  rewrite E2, apply_writes_last, last_write_app.
  destruct (last_write (program_writes r) a); [reflexivity|].
  now rewrite last_write_erase.
Qed.

(** ** Reduction to the builds that differ *)

Lemma calls_control_rom_cases (b : Z) :
  ControlRom.calls b = ControlRom.calls 1 \/
  ControlRom.calls b = ControlRom.calls 2 \/
  ControlRom.calls b = ControlRom.calls 0.
Proof.
  destruct (Z.eq_dec b 1) as [->|H1]; [now left|].
  destruct (Z.eq_dec b 2) as [->|H2]; [right; now left|].
  right; right. apply Z.eqb_neq in H1, H2.
  unfold ControlRom.calls, ControlRom.FETCH, ControlRom.LDA, ControlRom.ADD,
    ControlRom.SUB, ControlRom.OUT, ControlRom.HALT, ControlRom.HLT,
    ControlRom.MI, ControlRom.RI, ControlRom.RO, ControlRom.IO,
    ControlRom.II, ControlRom.AI, ControlRom.AO, ControlRom.EO,
    ControlRom.SU, ControlRom.BI, ControlRom.OI, ControlRom.CE,
    ControlRom.CO, ControlRom.J, ControlRom.ROM_1_SELECT,
    ControlRom.ROM_2_SELECT.
  rewrite H1, H2. reflexivity.
Qed.

Lemma calls_part_000_cases (b : Z) :
  Part000.calls b = Part000.calls 1 \/
  Part000.calls b = Part000.calls 2 \/
  Part000.calls b = Part000.calls 0.
Proof.
  destruct (Z.eq_dec b 1) as [->|H1]; [now left|].
  destruct (Z.eq_dec b 2) as [->|H2]; [right; now left|].
  right; right. apply Z.eqb_neq in H1, H2.
  unfold Part000.calls, Part000.FETCH, Part000.LDA, Part000.ADD,
    Part000.SUB, Part000.OUT, Part000.HALT, Part000.HLT,
    Part000.MI, Part000.RI, Part000.RO, Part000.IO,
    Part000.II, Part000.AI, Part000.AO, Part000.EO,
    Part000.SU, Part000.BI, Part000.OI, Part000.CE,
    Part000.CO, Part000.J, Part000.ROM_1_SELECT,
    Part000.ROM_2_SELECT.
  rewrite H1, H2. reflexivity.
Qed.

Lemma builds_ind (P : Revision -> Prop) :
  P (control_rom 1) -> P (control_rom 2) -> P (control_rom 0) ->
  P (part_000 1) -> P (part_000 2) -> P (part_000 0) -> P part_001 ->
  forall r, In r builds -> P r.
Proof.
  intros H1 H2 H3 H4 H5 H6 H7 r Hr. unfold builds in Hr. cbn [In] in Hr.
  repeat (destruct Hr as [<-|Hr]; [assumption|]). contradiction.
Qed.

Lemma build_cases (r : Revision) :
  exists r', In r' builds /\ same_build r r'.
Proof.
  unfold builds, same_build. destruct r as [b|b|].
  - destruct (calls_control_rom_cases b) as [E|[E|E]].
    + exists (control_rom 1). cbn; auto.
    + exists (control_rom 2). cbn; auto 6.
    + exists (control_rom 0). cbn; auto 6.
  - destruct (calls_part_000_cases b) as [E|[E|E]].
    + exists (part_000 1). cbn; auto 8.
    + exists (part_000 2). cbn; auto 8.
    + exists (part_000 0). cbn; auto 10.
  - exists part_001. cbn; auto 10.
Qed.

Lemma same_build_image (r r' : Revision) :
  same_build r r' ->
  encode r = encode r' /\ programmed r = programmed r' /\
  program_writes r = program_writes r'.
Proof.
  intros [Ea Ec]. unfold encode, programmed, program_writes, step_writes.
  rewrite Ea, Ec. auto.
Qed.

Lemma same_build_checks (r r' : Revision) :
  same_build r r' ->
  in_chip r = in_chip r' /\ round_trips r = round_trips r' /\
  collision_free r = collision_free r'.
Proof.
  intros H. destruct (same_build_image r r' H) as (E1 & E2 & E3).
  unfold in_chip, round_trips, collision_free. rewrite E1, E2, E3. auto.
Qed.

Lemma all_in_chip (r : Revision) : in_chip r = true.
Proof.
  destruct (build_cases r) as (r' & Hr' & Hb).
  destruct (same_build_checks r r' Hb) as (-> & _ & _).
  clear Hb. revert r' Hr'. apply builds_ind; vm_compute; reflexivity.
Qed.

(** Every address [setup] programs lies in the part the erase loop
    covers, hence also in the 16-bit [int] the sketch computes it in. *)
Lemma programmed_in_chip (r : Revision) (o n v : Z) :
  In (o, n, v) (programmed r) -> 0 <= encode r o n < 2048.
Proof.
  intros H. pose proof (all_in_chip r) as C. unfold in_chip in C.
  rewrite forallb_forall in C. specialize (C _ H). cbv beta iota in C.
  apply andb_prop in C. destruct C as [C1 C2].
  apply Z.leb_le in C1. apply Z.ltb_lt in C2. lia.
Qed.

Lemma round_trips_sound (r : Revision) (reg lat : list bool) (m : Z -> Z)
  (o n v : Z) :
  round_trips r = true -> In (o, n, v) (programmed r) ->
  readback r reg lat m (encode r o n) = v.
Proof.
  intros C H. rewrite readback_eq by (eapply programmed_in_chip; eauto).
  unfold round_trips in C. rewrite forallb_forall in C.
  specialize (C _ H). cbv beta iota in C.
  destruct (last_write _ _); [|discriminate]. now apply Z.eqb_eq.
Qed.

(** Round trip in [control-rom.ino], whichever chip is built. *)
Lemma round_trip_control_rom (b : Z) (reg lat : list bool) (m : Z -> Z)
  (o n v : Z) :
  In (o, n, v) (programmed (control_rom b)) ->
  readback (control_rom b) reg lat m (encode (control_rom b) o n) = v.
Proof.
  apply round_trips_sound.
  destruct (calls_control_rom_cases b) as [E|[E|E]].
  - destruct (same_build_checks (control_rom b) (control_rom 1))
      as (_ & -> & _); [split; [reflexivity | exact E]|].
    vm_compute. reflexivity.
  - destruct (same_build_checks (control_rom b) (control_rom 2))
      as (_ & -> & _); [split; [reflexivity | exact E]|].
    vm_compute. reflexivity.
  - destruct (same_build_checks (control_rom b) (control_rom 0))
      as (_ & -> & _); [split; [reflexivity | exact E]|].
    vm_compute. reflexivity.
Qed.

(** Round trip in [part_001]. *)
Lemma round_trip_part_001 (reg lat : list bool) (m : Z -> Z) (o n v : Z) :
  In (o, n, v) (programmed part_001) ->
  readback part_001 reg lat m (encode part_001 o n) = v.
Proof. apply round_trips_sound. vm_compute. reflexivity. Qed.

(** ** Auxiliary facts for the properties below *)

Lemma distinct_sound (l : list Z) : distinct l = true -> NoDup l.
Proof.
  induction l as [|x l IH]; intros H; [constructor|].
  cbn [distinct] in H. apply andb_prop in H. destruct H as [H1 H2].
  constructor; [|now apply IH].
  intros Hin. apply negb_true_iff in H1.
  assert (E : existsb (Z.eqb x) l = true).
  { apply existsb_exists. exists x. split; [exact Hin | apply Z.eqb_refl]. }
  congruence.
Qed.

Lemma distinct_bits_sound (l : list Z) :
  distinct_bits l = true -> one_bit_each l.
Proof.
  unfold distinct_bits, one_bit_each. intros H.
  apply andb_prop in H. destruct H as [H1 H2].
  split; [now apply distinct_sound|].
  apply Forall_forall. intros x Hx.
  rewrite forallb_forall in H1. specialize (H1 x Hx).
  unfold single_bit in H1. apply existsb_exists in H1.
  destruct H1 as (k & Hk & Hxk). apply in_range in Hk.
  apply Z.eqb_eq in Hxk. eauto.
Qed.

Lemma setAddress_bus_ok (address : Z) (oe : bool) (s : Board) :
  bus_ok s -> bus_ok (exec (setAddress address oe) s).
Proof.
  intros (M1 & M2 & M3 & L1 & L2 & L3).
  destruct (setAddress_spec address oe s M1 M2 L1)
    as (A1 & A2 & A3 & A4 & _).
  unfold bus_ok. rewrite A1, A2, A3, (A4 WRITE_EN) by pins.
  repeat apply conj; first [assumption | reflexivity].
Qed.

Lemma reachable_bus_ok (s : Board) : reachable s -> bus_ok s.
Proof.
  induction 1 as [reg lat m | s a oe _ IH | s a _ IH | s a d _ IH].
  - apply init_pins_ok.
  - now apply setAddress_bus_ok.
  - now apply readEEPROM_frame.
  - now apply writeEEPROM_spec.
Qed.

Lemma not_programmed_check (r : Revision) (a : Z) :
  forallb (fun p : Z * Z * Z =>
             let '(o, n, _) := p in negb (encode r o n =? a))
          (programmed r) = true ->
  forall o n v, In (o, n, v) (programmed r) -> encode r o n <> a.
Proof.
  intros C o n v H. rewrite forallb_forall in C.
  specialize (C _ H). cbv beta iota in C.
  apply negb_true_iff, Z.eqb_neq in C. exact C.
Qed.

Lemma forallb_range (P : Z -> bool) (lo hi : Z) :
  forallb P (range lo hi) = true -> forall x, lo <= x <= hi -> P x = true.
Proof.
  intros H x Hx. rewrite forallb_forall in H. apply H, in_range, Hx.
Qed.

(** In [control-rom.ino] and [part_000] the fetch steps and the
    instruction steps of an opcode differ in the timing field only. *)
Lemma fields_kept_control_rom_part_000 (b o t : Z) :
  0 <= o <= 15 -> 0 <= t <= 2 ->
  same_but_timing (control_rom b)
    (address_of (control_rom b) o 3 t) (address_of (control_rom b) o 0 t)
  = true /\
  same_but_timing (part_000 b)
    (address_of (part_000 b) o 3 t) (address_of (part_000 b) o 0 t)
  = true.
Proof.
  intros Ho Ht.
  assert (C1 : fields_kept (control_rom b) = true) by (vm_compute; reflexivity).
  assert (C2 : fields_kept (part_000 b) = true) by (vm_compute; reflexivity).
  unfold fields_kept in C1, C2. split.
  - exact (forallb_range _ _ _ (forallb_range _ _ _ C1 o Ho) t Ht).
  - exact (forallb_range _ _ _ (forallb_range _ _ _ C2 o Ho) t Ht).
Qed.

Lemma collision_free_sound (r : Revision) (o n v o' n' v' : Z) :
  collision_free r = true ->
  In (o, n, v) (programmed r) -> In (o', n', v') (programmed r) ->
  encode r o n = encode r o' n' -> o = o' /\ n = n'.
Proof.
  intros C H H' E. unfold collision_free in C.
  rewrite forallb_forall in C. specialize (C _ H).
  rewrite forallb_forall in C. specialize (C _ H'). cbv beta iota in C.
  apply Z.eqb_eq in E. rewrite E in C. cbn [implb] in C.
  apply andb_prop in C. destruct C as [C1 C2].
  apply Z.eqb_eq in C1, C2. auto.
Qed.

(** In [control-rom.ino] distinct programmed pairs have distinct
    addresses. *)
Lemma control_rom_injective (b o n v o' n' v' : Z) :
  In (o, n, v) (programmed (control_rom b)) ->
  In (o', n', v') (programmed (control_rom b)) ->
  encode (control_rom b) o n = encode (control_rom b) o' n' ->
  o = o' /\ n = n'.
Proof.
  apply collision_free_sound.
  destruct (calls_control_rom_cases b) as [E|[E|E]].
  - destruct (same_build_checks (control_rom b) (control_rom 1))
      as (_ & _ & ->); [split; [reflexivity | exact E]|].
    vm_compute. reflexivity.
  - destruct (same_build_checks (control_rom b) (control_rom 2))
      as (_ & _ & ->); [split; [reflexivity | exact E]|].
    vm_compute. reflexivity.
  - destruct (same_build_checks (control_rom b) (control_rom 0))
      as (_ & _ & ->); [split; [reflexivity | exact E]|].
    vm_compute. reflexivity.
Qed.

(** The addresses of [part_000] fit its ten field bits. *)
Lemma part_000_address_ten_bits (o t_start t : Z) :
  0 <= Part000.address o t_start t
     < 2 ^ address_bits (Z.lor Part000.T_MASK Part000.I_MASK).
Proof.
  change (2 ^ address_bits _) with (2 ^ 10).
  assert (E : Part000.address o t_start t
              = Z.land (Part000.address o t_start t) (Z.ones 10)).
  { unfold Part000.address. cbv zeta.
    assert (H : 0 <= Z.land (to_byte o) 15 < 16).
    { change 15 with (Z.ones 4). rewrite Z.land_ones by lia.
      apply Z.mod_pos_bound. reflexivity. }
    replace (to_byte (Z.land (to_byte o) 15)) with (Z.land (to_byte o) 15)
      by (symmetry; apply Z.mod_small; lia).
    rewrite Z.land_lor_distr_l, <- !Z.land_assoc. reflexivity. }
  rewrite E, Z.land_ones by lia. apply Z.mod_pos_bound. reflexivity.
Qed.

(** ** The properties of the specification *)

(** C1.  Round trip: every programmed (opcode, time-step) pair should read
    back as the micro-step byte the table defines.  [control-rom.ino] and
    [part_001] do ([round_trip_control_rom], [round_trip_part_001]).  In
    [part_000] the pair (opcode 1 (ADD), time-step 4) is programmed with the
    byte 16 (RO|BI on chip 1), yet after [setup] its address reads back 64,
    the byte of time-step 5 that was written over it; in the build for chip
    2 it is programmed with 8 and reads back 1. *)
Theorem part_000_read_back_differs (reg lat : list bool) (m : Z -> Z) :
  (In (1, 4, 16) (programmed (part_000 1)) /\
   In (1, 5, 64) (programmed (part_000 1)) /\
   encode (part_000 1) 1 4 = encode (part_000 1) 1 5 /\
   readback (part_000 1) reg lat m (encode (part_000 1) 1 4) = 64) /\
  (In (1, 4, 8) (programmed (part_000 2)) /\
   readback (part_000 2) reg lat m (encode (part_000 2) 1 4) = 1).
Proof.
  split.
  - split; [in_list|]. split; [in_list|]. split; [reflexivity|].
    rewrite readback_eq by (vm_compute; split; [discriminate | reflexivity]).
    vm_compute. reflexivity.
  - split; [in_list|].
    rewrite readback_eq by (vm_compute; split; [discriminate | reflexivity]).
    vm_compute. reflexivity.
Qed.

(** C2.  The addresses of (o, t+3) and (o, t) should differ only in the
    timing field and agree in the opcode field.  [control-rom.ino] and
    [part_000] satisfy this ([fields_kept_control_rom_part_000]).  In
    [part_001] the opcode is added into bits the ring counter signal also
    uses: for opcode 0xE and t = 2 the low four bits, where the opcode was
    added, hold 2 at time-step 5 and 0xE at time-step 2; and with the fields
    the header of the file states (instruction on bits 6-10) the instruction
    bits of opcode 0 differ between time-steps 3 and 0. *)
Theorem part_001_opcode_field_not_kept :
  same_but_timing part_001
    (address_of part_001 0xE 3 2) (address_of part_001 0xE 0 2) = false /\
  Z.land (address_of part_001 0xE 3 2) (opcode_mask part_001) = 2 /\
  Z.land (address_of part_001 0xE 0 2) (opcode_mask part_001) = 0xE /\
  Z.land (address_of part_001 0 3 0) part_001_header_opcode_mask = 0 /\
  Z.land (address_of part_001 0 0 0) part_001_header_opcode_mask = 0x80.
Proof. repeat split; reflexivity. Qed.

(** C3, as stated: some revision lets bits of the opcode above the low four
    reach the address.  [control-rom.ino] shifts its whole byte-wide opcode:
    opcode 16 and opcode 16 mod 16 = 0 get different addresses. *)
Lemma control_rom_opcode_not_masked :
  address_of (control_rom 1) 16 0 0
  <> address_of (control_rom 1) (16 mod 16) 0 0.
Proof. vm_compute. discriminate. Qed.

(** C3, amended.  In [part_000], whose [writeInstruction] masks the opcode
    with [0x00F], only the low four bits of the opcode reach the address:
    opcode [o] and opcode [o mod 16] give the same address at every
    time-step. *)
Theorem part_000_opcode_masked (b o t_start t : Z) :
  address_of (part_000 b) o t_start t
  = address_of (part_000 b) (o mod 16) t_start t.
Proof.
  cbn [address_of]. unfold Part000.address. cbv zeta. do 2 f_equal.
  unfold to_byte. change 15 with (Z.ones 4). rewrite !Z.land_ones by lia.
  change 256 with (2 ^ 8). change 16 with (2 ^ 4).
  rewrite !(mod_pow2_mod_pow2 _ 4 8) by lia.
  rewrite (mod_pow2_mod_pow2 _ 4 4) by lia. reflexivity.
Qed.

(** C4, as stated: the erase loop would stay inside the address space of
    the layout.  The layout of [part_000] has ten address bits (timing mask
    [0x3F0], opcode mask [0x00F]; see [part_000_address_ten_bits]), but the
    erase loop writes address 1024. *)
Lemma erase_beyond_ten_bit_layout :
  address_bits (Z.lor Part000.T_MASK Part000.I_MASK) = 10 /\
  ~ (forall a d,
        In (a, d) (pulses (exec erase fresh_board)) ->
        0 <= a < 2 ^ address_bits (Z.lor Part000.T_MASK Part000.I_MASK)).
Proof.
  split; [reflexivity|]. intros H.
  destruct (init_pins_ok [] [] (fun _ => 0)) as (I1 & _ & I3).
  fold fresh_board in I1, I3.
  destruct (performs_erase _ I1) as (_ & _ & E).
  rewrite I3 in E. specialize (H 1024 0xff). rewrite E in H.
  change (2 ^ address_bits _) with 1024 in H.
  assert (G : 0 <= 1024 < 1024); [|lia].
  apply H. cbn [app]. unfold erase_writes.
  apply (in_map (fun a => (a, 0xff))). apply in_range. lia.
Qed.

(** C4, amended.  In every revision the erase loop writes the byte 0xFF to
    every address in [0, 2048) and to no other address, whatever the number
    of address bits the layout uses; afterwards every address in that range
    holds 0xFF, and no other cell has changed. *)
Theorem erase_whole_chip (s : Board) :
  bus_ok s ->
  pulses (exec erase s) = pulses s ++ map (fun a => (a, 0xff)) (range 0 2047)
  /\ (forall a, 0 <= a < 2048 -> mem (exec erase s) a = 0xff)
  /\ (forall a, ~ 0 <= a < 2048 -> mem (exec erase s) a = mem s a).
Proof.
  intros Hs. destruct (performs_erase s Hs) as (_ & E2 & E3).
  split; [exact E3|]. split; intros a Ha; rewrite E2, apply_writes_last.
  - now rewrite last_write_erase.
  - now rewrite last_write_erase_outside.
Qed.

Lemma erase_whole_chip_witness :
  pulses (exec erase fresh_board)
  = pulses fresh_board ++ map (fun a => (a, 0xff)) (range 0 2047)
  /\ (forall a, 0 <= a < 2048 -> mem (exec erase fresh_board) a = 0xff)
  /\ (forall a, ~ 0 <= a < 2048 ->
                mem (exec erase fresh_board) a = mem fresh_board a).
Proof.
  apply (erase_whole_chip fresh_board).
  unfold bus_ok. repeat split; reflexivity.
Defined.

(** C5, as stated: the fetch cycle would be written for each of the 16
    opcodes.  [part_001] writes it once, for opcode 0: its fetch phase issues
    three write cycles, not forty-eight. *)
Lemma part_001_fetch_not_per_opcode :
  pulses (exec (fetch_phase part_001) fresh_board)
  <> pulses fresh_board ++
     flat_map (fun o => step_writes part_001 (o, 0, fetch_table part_001))
              (range 0 15).
Proof.
  intros H. apply (f_equal (@length _)) in H.
  vm_compute in H. discriminate.
Qed.

(** C5, amended.  [control-rom.ino] and [part_000] write the 3-step fetch
    program once per opcode value, for opcodes 0 to 15 in turn, at time-step
    start 0; [part_001], whose hardware zeroes the instruction bits during
    the fetch steps, writes it once, for opcode 0.  Here [fetch_opcodes] is
    [0 .. 15] for the first two revisions and [0] for the third. *)
Theorem fetch_phase_writes (r : Revision) (s : Board) :
  bus_ok s ->
  pulses (exec (fetch_phase r) s)
  = pulses s ++ flat_map (fun o => step_writes r (o, 0, fetch_table r))
                         (fetch_opcodes r).
Proof.
  intros Hs. destruct r as [b|b|]; cbn [fetch_phase fetch_table fetch_opcodes].
  - apply (performs_fetch_control_rom b s Hs).
  - apply (performs_fetch_part_000 b s Hs).
  - cbn [flat_map]. rewrite app_nil_r.
    apply (performs_fetch_part_001 s Hs).
Qed.

Lemma fetch_phase_writes_witness :
  pulses (exec (fetch_phase (control_rom 1)) fresh_board)
  = pulses fresh_board ++
    flat_map (fun o => step_writes (control_rom 1)
                         (o, 0, fetch_table (control_rom 1)))
             (fetch_opcodes (control_rom 1)).
Proof.
  apply (fetch_phase_writes (control_rom 1) fresh_board).
  unfold bus_ok. repeat split; reflexivity.
Defined.

(** C6.  Bank isolation.  In a build for chip 1 every signal constant of
    chip 2 is zero, and in a build for chip 2 every signal constant of chip
    1 is zero; the signals of the chip built for are distinct single bits of
    the byte; and every micro-step byte of every table has bits of these
    signals only.  This holds in both builds of [control-rom.ino] and of
    [part_000], and in [part_001], which is written for chip 1.  A signal
    belongs to the chip whose selector multiplies it. *)
Theorem bank_isolation :
  Forall (fun r =>
            Forall (eq 0) (other_signals r) /\
            one_bit_each (own_signals r) /\
            Forall (fun m => Z.land m (Z.lnot (bank_bits (own_signals r))) = 0)
                   (concat (tables_of r)))
         chip_builds.
Proof.
  unfold chip_builds.
  repeat (apply Forall_cons || apply Forall_nil);
    (split; [vm_compute; repeat constructor|]);
    (split; [apply distinct_bits_sound; vm_compute; reflexivity|]);
    vm_compute; repeat constructor.
Qed.

(** C7.  After [setup] has run from reset, every address of the chip that
    is not the address of a programmed (opcode, time-step) pair still holds
    0xFF, and reads back as 0xFF.  This holds in the three revisions, for
    both chip selections and whatever the chip held before. *)
Theorem unprogrammed_cells_erased (r : Revision) (reg lat : list bool)
  (m : Z -> Z) (a : Z) :
  0 <= a < 2048 ->
  (forall o n v, In (o, n, v) (programmed r) -> encode r o n <> a) ->
  mem (exec (setup_of r) (power_on reg lat m)) a = 0xff /\
  readback r reg lat m a = 0xff.
Proof.
  intros Ha Hn.
  assert (E : last_write (program_writes r) a = None).
  { apply last_write_None. intros d Hd.
    rewrite program_writes_programmed in Hd. apply in_map_iff in Hd.
    destruct Hd as ([[o n] v] & Heq & Hin). inversion Heq; subst.
    pose proof (programmed_in_chip r o n v Hin) as Hc.
    apply (Hn o n v Hin). rewrite Z.mod_small by lia. reflexivity. }
  rewrite mem_after_setup, readback_eq, E by assumption. auto.
Qed.

Lemma unprogrammed_cells_erased_witness :
  mem (exec (setup_of (control_rom 1)) (power_on [] [] (fun _ => 0))) 0
  = 0xff /\
  readback (control_rom 1) [] [] (fun _ => 0) 0 = 0xff.
Proof.
  apply unprogrammed_cells_erased; [lia|].
  apply not_programmed_check. vm_compute. reflexivity.
Defined.

(** C8.  Distinct programmed pairs should get distinct addresses.
    [control-rom.ino] satisfies this ([control_rom_injective]).  In
    [part_001] the pairs (opcode 2, time-step 3) and (opcode 0xE, time-step
    5) are both programmed and both map to address 0x12; in [part_000]
    time-steps 4 and 5 of the same opcode map to one address, here 0x3F1 for
    opcode 1. *)
Theorem encoding_collisions :
  (In (2, 3, 0) (programmed part_001) /\
   In (0xE, 5, 0) (programmed part_001) /\
   encode part_001 2 3 = 0x12 /\ encode part_001 0xE 5 = 0x12) /\
  (In (1, 4, 16) (programmed (part_000 1)) /\
   In (1, 5, 64) (programmed (part_000 1)) /\
   encode (part_000 1) 1 4 = 0x3F1 /\ encode (part_000 1) 1 5 = 0x3F1).
Proof.
  repeat apply conj; first [reflexivity | in_list].
Qed.

(** C9, as stated: with LDA (opcode 0) programmed at time-step start 3 in
    the build of [control-rom.ino] that has MI on bit 1, RO on bit 3 and AI
    on bit 6 (chip 2), step 0 would read back as 0b00001010 = 10.  It does
    not. *)
Lemma lda_step0_is_not_10 :
  readback (control_rom 2) [] [] (fun _ => 0) (encode (control_rom 2) 0 3)
  <> 10.
Proof.
  rewrite readback_eq by (vm_compute; split; [discriminate | reflexivity]).
  vm_compute. discriminate.
Qed.

(** C9, amended.  In that build (MI = bit 1, RO = bit 3, AI = bit 6, and IO
    = bit 4) the address encoded for (opcode 0, time-step 3) reads back as
    0b00010010 = 18, which is IO|MI, step 0 of LDA; step 1 reads back as
    RO|AI = 0b01001000 = 72 and step 2 as 0. *)
Theorem lda_read_back (reg lat : list bool) (m : Z -> Z) :
  (ControlRom.MI 2 = 2 ^ 1 /\ ControlRom.RO 2 = 2 ^ 3 /\
   ControlRom.AI 2 = 2 ^ 6 /\ ControlRom.IO 2 = 2 ^ 4) /\
  ControlRom.LDA 2 = [18; 72; 0] /\
  readback (control_rom 2) reg lat m (encode (control_rom 2) 0 3) = 18 /\
  readback (control_rom 2) reg lat m (encode (control_rom 2) 0 4) = 72 /\
  readback (control_rom 2) reg lat m (encode (control_rom 2) 0 5) = 0.
Proof.
  split; [repeat split; reflexivity|]. split; [reflexivity|].
  rewrite !readback_eq by (vm_compute; split; [discriminate | reflexivity]).
  vm_compute. auto.
Qed.

(** C10.  Between driver operations the write-enable line is high and the
    latch line is low: this holds after the pin set-up of [setup] run from
    reset, and after every [setAddress], [readEEPROM] and [writeEEPROM]
    issued from then on. *)
Theorem control_lines_at_rest (s : Board) :
  reachable s ->
  level s WRITE_EN = HIGH /\ level s SHIFT_LATCH = LOW.
Proof.
  intros H. apply reachable_bus_ok in H.
  destruct H as (_ & _ & _ & _ & L2 & L3). auto.
Qed.

Lemma control_lines_at_rest_witness :
  level (exec (writeEEPROM 0x1F 0xA5) fresh_board) WRITE_EN = HIGH /\
  level (exec (writeEEPROM 0x1F 0xA5) fresh_board) SHIFT_LATCH = LOW.
Proof.
  apply (control_lines_at_rest (exec (writeEEPROM 0x1F 0xA5) fresh_board)).
  apply reach_write. apply reach_init.
Defined.

(** * The rest of the sketch *)

(** ** The bus driver, operation by operation *)

Lemma bus_word_oe_any (address : Z) (oe : bool) :
  nth 15 (bus_word address oe) false = negb oe || Z.testbit address 15.
Proof.
  unfold bus_word, low_bits. cbn [seq map app nth].
  change (Z.of_nat 7) with 7. unfold to_byte. change 256 with (2 ^ 8).
  rewrite Z.mod_pow2_bits_low, Z.lor_spec, Z.shiftr_spec by lia.
  change (7 + 8) with 15. rewrite orb_comm. now destruct oe.
Qed.

(** X1.  [setAddress] presents the low 15 bits of [address] on the address
    lines of the chip, whatever was latched before; the chip's outputs are
    disabled when [outputEnable] is false or when bit 15 of [address] is
    set, because that bit travels on the output-enable line.  It writes
    nothing and leaves the control lines at rest. *)
Theorem setAddress_presents (address : Z) (outputEnable : bool) (s : Board) :
  bus_ok s ->
  addr_lines (exec (setAddress address outputEnable) s) = address mod 32768
  /\ oe_disabled (exec (setAddress address outputEnable) s)
     = negb outputEnable || Z.testbit address 15
  /\ mem (exec (setAddress address outputEnable) s) = mem s
  /\ pulses (exec (setAddress address outputEnable) s) = pulses s
  /\ bus_ok (exec (setAddress address outputEnable) s).
Proof.
  intros Hs. pose proof (setAddress_bus_ok address outputEnable s Hs) as Hb.
  destruct Hs as (M1 & M2 & M3 & L1 & L2 & L3).
  destruct (setAddress_spec address outputEnable s M1 M2 L1)
    as (_ & _ & _ & _ & A5 & A6 & A7).
  unfold addr_lines, oe_disabled.
  rewrite A5, bus_word_addr_mod, bus_word_oe_any. auto.
Qed.

Lemma setAddress_presents_witness :
  addr_lines (exec (setAddress 0x41F false) fresh_board) = 0x41F mod 32768
  /\ oe_disabled (exec (setAddress 0x41F false) fresh_board)
     = negb false || Z.testbit 0x41F 15
  /\ mem (exec (setAddress 0x41F false) fresh_board) = mem fresh_board
  /\ pulses (exec (setAddress 0x41F false) fresh_board) = pulses fresh_board
  /\ bus_ok (exec (setAddress 0x41F false) fresh_board).
Proof.
  apply (setAddress_presents 0x41F false fresh_board).
  unfold bus_ok. repeat split; reflexivity.
Defined.

Lemma fresh_board_ok : bus_ok fresh_board.
Proof. unfold bus_ok. repeat split; reflexivity. Qed.

(** X2.  A byte written with [writeEEPROM] is the byte [readEEPROM] returns
    from the same address; a value wider than a byte is stored modulo
    256. *)
Theorem write_read_round_trip (address data : Z) (s : Board) :
  bus_ok s -> 0 <= address < 32768 ->
  eval (readEEPROM address) (exec (writeEEPROM address data) s)
  = data mod 256.
Proof.
  intros Hs Ha. destruct (writeEEPROM_spec address data s Hs) as (B & E & _).
  rewrite readEEPROM_value by assumption.
  rewrite E, (Z.mod_small address 32768) by lia. rewrite upd_same.
  unfold to_byte. apply Z.mod_mod. lia.
Qed.

Lemma write_read_round_trip_witness :
  eval (readEEPROM 0x3F1) (exec (writeEEPROM 0x3F1 0x1A5) fresh_board)
  = 0x1A5 mod 256.
Proof.
  apply (write_read_round_trip 0x3F1 0x1A5 fresh_board);
    [unfold bus_ok; repeat split; reflexivity | lia].
Defined.



Lemma data_pin_nth (p : Z) :
  5 <= p <= 12 -> p = EEPROM_D0 + Z.of_nat (Z.to_nat (p - 5)).
Proof. unfold EEPROM_D0. lia. Qed.

(** The state of the pins when [writeEEPROM] returns. *)
Lemma writeEEPROM_pins (address data : Z) (s : Board) :
  bus_ok s ->
  (forall p, In p data_pins ->
             mode (exec (writeEEPROM address data) s) p = OUTPUT) /\
  map (level (exec (writeEEPROM address data) s)) data_pins
  = low_bits 8 (to_byte data).
Proof.
  intros (M1 & M2 & M3 & L1 & L2 & L3).
  unfold writeEEPROM. cbv zeta.
  rewrite exec_bind, exec_bind, exec_bind.
  destruct (setAddress_spec address false s M1 M2 L1)
    as (A1 & A2 & A3 & A4 & A5 & A6 & A7).
  set (s1 := exec (setAddress address false) s) in *. clearbody s1.
  destruct (pinMode_loop_spec (range EEPROM_D0 EEPROM_D7) OUTPUT s1)
    as (B1 & B2 & B3 & B4 & B5 & B6 & B7).
  set (s2 := exec (for_each (range EEPROM_D0 EEPROM_D7) _) s1) in *.
  clearbody s2.
  destruct (drive_loop_spec (range EEPROM_D0 EEPROM_D7) (to_byte data) s2)
    as (C1 & C2 & C3 & C4 & C5 & C6 & C7).
  { intros p Hp. apply data_pins_inert in Hp. tauto. }
  { apply NoDup_range. }
  set (s3 := exec (for_acc (range EEPROM_D0 EEPROM_D7) _ _) s2) in *.
  clearbody s3.
  destruct (write_pulse_spec s3) as (D1 & D2 & D3 & D4 & D5).
  { rewrite C1, B2, A1 by (apply control_not_data; auto). exact M3. }
  { unfold oe_disabled. rewrite C5, B5, A5. apply bus_word_write_oe. }
  set (s4 := exec (_ ;; _) s3) in *. clearbody s4.
  fold data_pins in B1, C3. split.
  - intros p Hp. rewrite D1, C1. now apply B1.
  - transitivity (map (level s3) data_pins); [|exact C3].
    apply map_ext_in. intros p Hp. apply D3.
    apply data_pins_inert in Hp. tauto.
Qed.

(** X4.  [writeEEPROM] issues exactly one write cycle, to the cell
    [address mod 32768] with the byte [data mod 256], and returns with the
    eight data lines configured as outputs that hold that byte, bit 0 on
    [EEPROM_D0] and bit 7 on [EEPROM_D7]. *)
Theorem writeEEPROM_cycle_and_pins (address data : Z) (s : Board) :
  bus_ok s ->
  pulses (exec (writeEEPROM address data) s)
  = pulses s ++ [(address mod 32768, data mod 256)] /\
  (forall p, EEPROM_D0 <= p <= EEPROM_D7 ->
     mode (exec (writeEEPROM address data) s) p = OUTPUT /\
     level (exec (writeEEPROM address data) s) p
     = Z.testbit (data mod 256) (p - EEPROM_D0)).
Proof.
  intros Hs. destruct (writeEEPROM_spec address data s Hs) as (_ & _ & E).
  destruct (writeEEPROM_pins address data s Hs) as (Hm & Hl).
  split; [exact E|]. intros p Hp. unfold EEPROM_D0, EEPROM_D7 in Hp.
  assert (Hin : In p data_pins) by now apply data_pin_range.
  split; [now apply Hm|].
  unfold data_pins, range, low_bits in Hl. rewrite map_map in Hl.
  change (Z.to_nat (EEPROM_D7 - EEPROM_D0 + 1)) with 8%nat in Hl.
  pose proof (ext_in_map Hl (Z.to_nat (p - 5))) as G. cbv beta in G.
  rewrite <- (data_pin_nth p Hp) in G. rewrite G by (apply in_seq; lia).
  unfold to_byte, EEPROM_D0. f_equal. lia.
Qed.

Lemma writeEEPROM_cycle_and_pins_witness :
  pulses (exec (writeEEPROM 0x1F 0xA5) fresh_board)
  = pulses fresh_board ++ [(0x1F mod 32768, 0xA5 mod 256)] /\
  (forall p, EEPROM_D0 <= p <= EEPROM_D7 ->
     mode (exec (writeEEPROM 0x1F 0xA5) fresh_board) p = OUTPUT /\
     level (exec (writeEEPROM 0x1F 0xA5) fresh_board) p
     = Z.testbit (0xA5 mod 256) (p - EEPROM_D0)).
Proof.
  apply (writeEEPROM_cycle_and_pins 0x1F 0xA5 fresh_board).
  unfold bus_ok. repeat split; reflexivity.
Defined.

(** X5.  [readEEPROM] returns the byte of the addressed cell, issues no
    write cycle and changes no cell, and returns with the eight data lines
    configured as inputs, also when the call before it left them as
    outputs. *)
Theorem readEEPROM_reads_only (address : Z) (s : Board) :
  bus_ok s -> 0 <= address < 32768 ->
  eval (readEEPROM address) s = mem s address mod 256 /\
  mem (exec (readEEPROM address) s) = mem s /\
  pulses (exec (readEEPROM address) s) = pulses s /\
  (forall p, EEPROM_D0 <= p <= EEPROM_D7 ->
             mode (exec (readEEPROM address) s) p = INPUT).
Proof.
  intros Hs Ha. split; [now apply readEEPROM_value|].
  destruct (readEEPROM_frame address s Hs) as (_ & E2 & E3).
  split; [exact E2|]. split; [exact E3|].
  destruct Hs as (M1 & M2 & M3 & L1 & L2 & L3).
  intros p Hp. unfold readEEPROM.
  rewrite exec_bind, exec_bind, read_loop_exec.
  destruct (pinMode_loop_spec (range EEPROM_D0 EEPROM_D7) INPUT s)
    as (B1 & B2 & B3 & _).
  set (s1 := exec (for_each (range EEPROM_D0 EEPROM_D7) _) s) in *.
  clearbody s1. fold data_pins in B1, B2.
  assert (N1 : mode s1 SHIFT_CLK = OUTPUT)
    by (rewrite B2 by (apply control_not_data; auto); exact M1).
  assert (N2 : mode s1 SHIFT_LATCH = OUTPUT)
    by (rewrite B2 by (apply control_not_data; auto); exact M2).
  assert (N3 : level s1 SHIFT_CLK = LOW) by (rewrite B3; exact L1).
  destruct (setAddress_spec address true s1 N1 N2 N3) as (A1 & _).
  rewrite A1. apply B1, data_pin_range. exact Hp.
Qed.

Lemma readEEPROM_reads_only_witness :
  eval (readEEPROM 0x1F) (exec (writeEEPROM 0x1F 0xA5) fresh_board)
  = mem (exec (writeEEPROM 0x1F 0xA5) fresh_board) 0x1F mod 256 /\
  mem (exec (readEEPROM 0x1F) (exec (writeEEPROM 0x1F 0xA5) fresh_board))
  = mem (exec (writeEEPROM 0x1F 0xA5) fresh_board) /\
  pulses (exec (readEEPROM 0x1F) (exec (writeEEPROM 0x1F 0xA5) fresh_board))
  = pulses (exec (writeEEPROM 0x1F 0xA5) fresh_board) /\
  (forall p, EEPROM_D0 <= p <= EEPROM_D7 ->
     mode (exec (readEEPROM 0x1F) (exec (writeEEPROM 0x1F 0xA5) fresh_board))
          p = INPUT).
Proof.
  apply (readEEPROM_reads_only 0x1F (exec (writeEEPROM 0x1F 0xA5) fresh_board));
    [|lia].
  apply writeEEPROM_spec. unfold bus_ok. repeat split; reflexivity.
Defined.

(** ** Pin set-up, erase and dump *)

Lemma exec_pinMode (pin : Z) (m : PinMode) (s : Board) :
  exec (pinMode pin m) s
  = mkBoard (upd (mode s) pin m) (level s) (shift_reg s) (latched s)
            (mem s) (pulses s).
Proof. reflexivity. Qed.

Lemma digitalWrite_no_edge (pin : Z) (v : bool) (s : Board) :
  is_output (mode s pin) && negb (level s pin) && v = false ->
  exec (digitalWrite pin v) s
  = mkBoard (mode s) (upd (level s) pin v) (shift_reg s) (latched s)
            (mem s) (pulses s).
Proof.
  intros H. unfold exec, digitalWrite; cbn [snd].
  rewrite H, !andb_false_r. reflexivity.
Qed.

(** X6.  The pin set-up that opens [setup] raises write-enable before it
    makes the pin an output, so it causes no write cycle: run from any state
    in which write-enable is an input (as after reset) or already high, it
    leaves every cell as it was and ends with the four control pins as
    outputs and write-enable high. *)
Theorem init_pins_no_write (s : Board) :
  mode s WRITE_EN = INPUT \/ level s WRITE_EN = HIGH ->
  mem (exec init_pins s) = mem s /\
  pulses (exec init_pins s) = pulses s /\
  level (exec init_pins s) WRITE_EN = HIGH /\
  Forall (fun p => mode (exec init_pins s) p = OUTPUT)
         [SHIFT_DATA; SHIFT_CLK; SHIFT_LATCH; WRITE_EN].
Proof.
  intros H. unfold init_pins.
  rewrite exec_bind, exec_bind, exec_bind, exec_bind, !exec_pinMode.
  rewrite digitalWrite_no_edge.
  - cbn [mode level mem pulses]. repeat split; repeat constructor.
  - cbn [mode level]. rewrite !upd_other by pins.
    destruct H as [-> | ->]; [reflexivity|].
    now destruct (is_output (mode s WRITE_EN)).
Qed.

Lemma init_pins_no_write_witness :
  mem (exec init_pins (power_on [] [] (fun _ => 7))) = (fun _ => 7) /\
  pulses (exec init_pins (power_on [] [] (fun _ => 7))) = [] /\
  level (exec init_pins (power_on [] [] (fun _ => 7))) WRITE_EN = HIGH /\
  Forall (fun p => mode (exec init_pins (power_on [] [] (fun _ => 7))) p
                   = OUTPUT)
         [SHIFT_DATA; SHIFT_CLK; SHIFT_LATCH; WRITE_EN].
Proof.
  apply (init_pins_no_write (power_on [] [] (fun _ => 7))).
  left. reflexivity.
Defined.

(** X7.  Erasing is idempotent: a second run of the erase loop leaves every
    cell as the first run left it. *)
Theorem erase_twice (s : Board) (a : Z) :
  bus_ok s ->
  mem (exec erase (exec erase s)) a = mem (exec erase s) a.
Proof.
  intros Hs. destruct (performs_erase s Hs) as (B1 & E1 & _).
  destruct (performs_erase _ B1) as (_ & E2 & _).
  rewrite E2, apply_writes_last.
  destruct (last_write erase_writes a) as [v|] eqn:L; [|reflexivity].
  now rewrite E1, apply_writes_last, L.
Qed.

Lemma erase_twice_witness :
  mem (exec erase (exec erase fresh_board)) 0x3F1
  = mem (exec erase fresh_board) 0x3F1.
Proof.
  apply (erase_twice fresh_board 0x3F1).
  unfold bus_ok. repeat split; reflexivity.
Defined.

Lemma eval_read_append (a : Z) (data : list Z) (s : Board) :
  eval (b <- readEEPROM a ;; ret (data ++ [b])) s
  = data ++ [eval (readEEPROM a) s].
Proof. unfold eval, bind, ret. now destruct (readEEPROM a s). Qed.

Lemma exec_read_append (a : Z) (data : list Z) (s : Board) :
  exec (b <- readEEPROM a ;; ret (data ++ [b])) s = exec (readEEPROM a) s.
Proof. unfold exec, bind, ret. now destruct (readEEPROM a s). Qed.

(** One line of the dump. *)
Lemma print_line (base : Z) (offsets : list Z) (data : list Z) (s : Board) :
  bus_ok s ->
  (forall o, In o offsets -> 0 <= base + o < 32768) ->
  let m := for_acc offsets data (fun offset data =>
             b <- readEEPROM (base + offset) ;; ret (data ++ [b])) in
  eval m s = data ++ map (fun o => mem s (base + o) mod 256) offsets /\
  bus_ok (exec m s) /\ mem (exec m s) = mem s /\
  pulses (exec m s) = pulses s.
Proof.
  revert data s; induction offsets as [|o l IH]; intros data s Hs Hr;
    cbv zeta.
  - cbn. rewrite app_nil_r. auto.
  - rewrite eval_for_acc_cons, exec_for_acc_cons.
    rewrite eval_read_append, exec_read_append.
    destruct (readEEPROM_frame (base + o) s Hs) as (B & E2 & E3).
    specialize (IH (data ++ [eval (readEEPROM (base + o)) s])
                   (exec (readEEPROM (base + o)) s) B
                   (fun x Hx => Hr x (or_intror Hx))).
    cbv zeta in IH. destruct IH as (I1 & I2 & I3 & I4).
    pose proof (readEEPROM_value (base + o) s Hs
                  (Hr o (or_introl eq_refl))) as V.
    split; [|split; [exact I2 | split; congruence]].
    rewrite I1, E2, V. cbn [map]. now rewrite <- app_assoc.
Qed.

Lemma eval_line_append {A : Type} (m : M A) (lines : list A) (s : Board) :
  eval (data <- m ;; ret (lines ++ [data])) s = lines ++ [eval m s].
Proof. unfold eval, bind, ret. now destruct (m s). Qed.

Lemma exec_line_append {A : Type} (m : M A) (lines : list A) (s : Board) :
  exec (data <- m ;; ret (lines ++ [data])) s = exec m s.
Proof. unfold exec, bind, ret. now destruct (m s). Qed.

Lemma print_lines (bases : list Z) (lines : list (list Z)) (s : Board) :
  bus_ok s ->
  (forall b, In b bases -> 0 <= b < 32000) ->
  let m := for_acc bases lines (fun base lines =>
             data <- for_acc (range 0 15) [] (fun offset data =>
                       b <- readEEPROM (base + offset) ;;
                       ret (data ++ [b])) ;;
             ret (lines ++ [data])) in
  eval m s
  = lines ++ map (fun base => map (fun o => mem s (base + o) mod 256)
                                  (range 0 15)) bases /\
  bus_ok (exec m s) /\ mem (exec m s) = mem s /\
  pulses (exec m s) = pulses s.
Proof.
  revert lines s; induction bases as [|b l IH]; intros lines s Hs Hr;
    cbv zeta.
  - cbn. rewrite app_nil_r. auto.
  - rewrite eval_for_acc_cons, exec_for_acc_cons.
    rewrite eval_line_append, exec_line_append.
    destruct (print_line b (range 0 15) [] s Hs) as (P1 & P2 & P3 & P4).
    { intros o Ho. apply in_range in Ho.
      pose proof (Hr b (or_introl eq_refl)). lia. }
    cbv zeta in P1, P2, P3, P4.
    match goal with |- context [exec ?m s] =>
      set (s1 := exec m s) in * end.
    clearbody s1.
    specialize (IH (lines ++ [eval (for_acc (range 0 15) [] (fun offset data =>
                       b0 <- readEEPROM (b + offset) ;;
                       ret (data ++ [b0]))) s]) s1 P2
                   (fun x Hx => Hr x (or_intror Hx))).
    cbv zeta in IH. destruct IH as (I1 & I2 & I3 & I4).
    split; [|split; [exact I2 | split; congruence]].
    rewrite I1, P3, P1. cbn [map app]. now rewrite <- app_assoc.
Qed.

Lemma printContents_spec (s : Board) :
  bus_ok s ->
  eval printContents s = dump (mem s) /\
  bus_ok (exec printContents s) /\
  mem (exec printContents s) = mem s /\
  pulses (exec printContents s) = pulses s.
Proof.
  intros Hs. unfold printContents, dump.
  apply (print_lines (map (fun k => 16 * Z.of_nat k) (seq 0 16)) [] s Hs).
  intros b Hb. apply in_map_iff in Hb. destruct Hb as (k & <- & Hk).
  apply in_seq in Hk. lia.
Qed.

(** X8.  [printContents] returns the cells 0 to 255 of the chip, as 16
    lines of 16 bytes in address order, and nothing beyond address 255; it
    issues no write cycle and changes no cell. *)
Theorem printContents_dumps_first_256 (s : Board) :
  bus_ok s ->
  eval printContents s = dump (mem s) /\
  mem (exec printContents s) = mem s /\
  pulses (exec printContents s) = pulses s.
Proof.
  intros Hs. destruct (printContents_spec s Hs) as (E1 & _ & E2 & E3). auto.
Qed.

Lemma printContents_dumps_first_256_witness :
  eval printContents fresh_board = dump (mem fresh_board) /\
  mem (exec printContents fresh_board) = mem fresh_board /\
  pulses (exec printContents fresh_board) = pulses fresh_board.
Proof.
  apply (printContents_dumps_first_256 fresh_board).
  unfold bus_ok. repeat split; reflexivity.
Defined.

(** ** [setup] as a whole *)

Lemma eval_setup_shape {A : Type} (i e f g : M unit) (p : M A) (s : Board) :
  eval (i ;; e ;; f ;; g ;; p) s = eval p (exec (e ;; f ;; g) (exec i s)).
Proof.
  unfold eval, exec, bind.
  destruct (i s) as [u1 s1]; cbn [snd].
  destruct (e s1) as [u2 s2]. destruct (f s2) as [u3 s3].
  destruct (g s3) as [u4 s4]. reflexivity.
Qed.

Lemma exec_setup_shape' {A : Type} (i e f g : M unit) (p : M A) (s : Board) :
  exec (i ;; e ;; f ;; g ;; p) s = exec p (exec (e ;; f ;; g) (exec i s)).
Proof.
  unfold exec, bind.
  destruct (i s) as [u1 s1]; cbn [snd].
  destruct (e s1) as [u2 s2]. destruct (f s2) as [u3 s3].
  destruct (g s3) as [u4 s4]. reflexivity.
Qed.

Lemma setup_returns_dump (r : Revision) (reg lat : list bool) (m : Z -> Z) :
  eval (setup_of r) (power_on reg lat m)
  = dump (mem (exec (setup_of r) (power_on reg lat m))).
Proof.
  assert (E : eval (setup_of r) (power_on reg lat m)
              = eval printContents
                  (exec (erase ;; programming r)
                        (exec init_pins (power_on reg lat m))) /\
              exec (setup_of r) (power_on reg lat m)
              = exec printContents
                  (exec (erase ;; programming r)
                        (exec init_pins (power_on reg lat m)))).
  { destruct r; cbn [setup_of programming];
      unfold ControlRom.setup, Part000.setup, Part001.setup;
      (split; [exact (eval_setup_shape _ _ _ _ _ _)
              | exact (exec_setup_shape' _ _ _ _ _ _)]). }
  destruct E as [-> ->].
  destruct (init_pins_ok reg lat m) as (I1 & _).
  set (s0 := exec init_pins (power_on reg lat m)) in *. clearbody s0.
  assert (P : performs (erase ;; programming r)
                       (erase_writes ++ program_writes r)).
  { apply performs_seq; [apply performs_erase | apply performs_programming]. }
  destruct (P s0 I1) as (B & _).
  set (s1 := exec (erase ;; programming r) s0) in *. clearbody s1.
  destruct (printContents_spec s1 B) as (D1 & _ & D2 & _).
  now rewrite D1, D2.
Qed.

(** X9.  The lines [setup] ends with (the return value of its
    [printContents]) are the cells 0 to 255 of the chip as [setup] leaves
    it: whatever was programmed at address 256 or above is not shown. *)
Theorem setup_shows_final_image (r : Revision) (reg lat : list bool)
  (m : Z -> Z) :
  eval (setup_of r) (power_on reg lat m)
  = dump (mem (exec (setup_of r) (power_on reg lat m))).
Proof. apply setup_returns_dump. Qed.

Lemma dump_ext (f g : Z -> Z) :
  (forall a, 0 <= a < 256 -> f a = g a) -> dump f = dump g.
Proof.
  intros H. unfold dump. apply map_ext_in. intros base Hb.
  apply in_map_iff in Hb. destruct Hb as (k & <- & Hk). apply in_seq in Hk.
  apply map_ext_in. intros o Ho. apply in_range in Ho.
  rewrite H by lia. reflexivity.
Qed.

(** Every address [part_000] programs lies above the dump. *)
Lemma part_000_programmed_high (b o n v : Z) :
  In (o, n, v) (programmed (part_000 b)) -> 256 <= encode (part_000 b) o n.
Proof.
  intros H.
  assert (G : forall k,
             Part000.calls b = Part000.calls k ->
             forallb (fun p : Z * Z * Z =>
                        let '(o, n, _) := p in
                        256 <=? encode (part_000 k) o n)
                     (programmed (part_000 k)) = true ->
             256 <= encode (part_000 b) o n).
  { intros k E C.
    destruct (same_build_image (part_000 b) (part_000 k) (conj eq_refl E))
      as (E1 & E2 & _).
    rewrite E2 in H. rewrite E1. rewrite forallb_forall in C.
    apply Z.leb_le. exact (C _ H). }
  destruct (calls_part_000_cases b) as [E|[E|E]];
    apply (G _ E); vm_compute; reflexivity.
Qed.

(** X10.  In [part_000] the dump that ends [setup] shows none of the
    programmed bytes: every address it programs is 0x370 or above, so the
    256 bytes printed are all 0xFF, for either chip and whatever the chip
    held before. *)
Theorem part_000_dump_blank (b : Z) (reg lat : list bool) (m : Z -> Z) :
  eval (setup_of (part_000 b)) (power_on reg lat m)
  = repeat (repeat 0xff 16) 16.
Proof.
  rewrite setup_returns_dump.
  rewrite (dump_ext _ (fun _ => 0xff)); [reflexivity|].
  intros a Ha. rewrite mem_after_setup by lia.
  rewrite last_write_None; [reflexivity|].
  intros d Hd. rewrite program_writes_programmed in Hd.
  apply in_map_iff in Hd. destruct Hd as ([[o n] v] & Heq & Hin).
  apply (f_equal fst) in Heq. cbn [fst] in Heq. rewrite <- Heq in Ha.
  pose proof (part_000_programmed_high b o n v Hin).
  pose proof (programmed_in_chip _ o n v Hin).
  rewrite Z.mod_small in Ha by lia. lia.
Qed.



(** X12.  The write cycles of a whole [setup] run from reset are the 2048
    cycles of the erase loop followed by three cycles per [writeInstruction]
    call; every one of them addresses a cell in [0, 2048) with a byte, and
    [setup] leaves the control lines at rest. *)
Theorem setup_write_cycles (r : Revision) (reg lat : list bool)
  (m : Z -> Z) :
  pulses (exec (setup_of r) (power_on reg lat m))
  = erase_writes ++ program_writes r /\
  length (pulses (exec (setup_of r) (power_on reg lat m)))
  = (2048 + 3 * length (calls_of r))%nat /\
  Forall (fun w : Z * Z => 0 <= fst w < 2048 /\ 0 <= snd w < 256)
         (pulses (exec (setup_of r) (power_on reg lat m))) /\
  bus_ok (exec (setup_of r) (power_on reg lat m)).
Proof.
  destruct (setup_image r reg lat m) as (B & _ & E). rewrite E.
  split; [reflexivity|]. split; [|split; [|exact B]].
  - rewrite length_app. unfold erase_writes, program_writes.
    rewrite length_map. f_equal.
    induction (calls_of r) as [|[[o ts] ops] l IH]; [reflexivity|].
    cbn [flat_map length]. rewrite length_app, IH.
    unfold step_writes. rewrite length_map. change (length (range 0 2)) with 3%nat.
    lia.
  - apply Forall_app. split.
    + unfold erase_writes. apply Forall_forall. intros w Hw.
      apply in_map_iff in Hw. destruct Hw as (a & <- & Ha).
      apply in_range in Ha. cbn [fst snd]. lia.
    + rewrite program_writes_programmed. apply Forall_forall. intros w Hw.
      apply in_map_iff in Hw. destruct Hw as ([[o n] v] & <- & Hin).
      pose proof (programmed_in_chip r o n v Hin). cbn [fst snd].
      rewrite Z.mod_small by lia. unfold to_byte.
      pose proof (Z.mod_pos_bound v 256). lia.
Qed.

(** ** The address computation of [control-rom.ino] *)

(** The inverted one-hot ring counter signal of time-step [n]. *)
Lemma control_rom_timing (n : Z) :
  0 <= n <= 5 ->
  Z.land (Z.lnot (Z.shiftr 0x20 n)) 0x3F = 63 - 2 ^ (5 - n).
Proof.
  intros H.
  assert (C : n = 0 \/ n = 1 \/ n = 2 \/ n = 3 \/ n = 4 \/ n = 5) by lia.
  destruct C as [->|[->|[->|[->|[->| ->]]]]]; reflexivity.
Qed.

Lemma control_rom_timing_cases (n : Z) :
  0 <= n <= 5 ->
  (n = 0 /\ Z.land (Z.lnot (Z.shiftr 0x20 n)) 0x3F = 31) \/
  (n = 1 /\ Z.land (Z.lnot (Z.shiftr 0x20 n)) 0x3F = 47) \/
  (n = 2 /\ Z.land (Z.lnot (Z.shiftr 0x20 n)) 0x3F = 55) \/
  (n = 3 /\ Z.land (Z.lnot (Z.shiftr 0x20 n)) 0x3F = 59) \/
  (n = 4 /\ Z.land (Z.lnot (Z.shiftr 0x20 n)) 0x3F = 61) \/
  (n = 5 /\ Z.land (Z.lnot (Z.shiftr 0x20 n)) 0x3F = 62).
Proof.
  intros H.
  assert (C : n = 0 \/ n = 1 \/ n = 2 \/ n = 3 \/ n = 4 \/ n = 5) by lia.
  destruct C as [->|[->|[->|[->|[->| ->]]]]]; tauto.
Qed.


Lemma control_rom_address_split (o t_start t : Z) :
  ControlRom.address o t_start t
  = 64 * (o mod 256) + Z.land (Z.lnot (Z.shiftr 0x20 (t + t_start))) 0x3F /\
  0 <= Z.land (Z.lnot (Z.shiftr 0x20 (t + t_start))) 0x3F < 64.
Proof.
  unfold ControlRom.address, to_byte. cbv zeta.
  set (T := Z.land (Z.lnot (Z.shiftr 32 (t + t_start))) 63).
  assert (HT : 0 <= T < 64).
  { unfold T. change 63 with (Z.ones 6). rewrite Z.land_ones by lia.
    apply Z.mod_pos_bound. reflexivity. }
  split; [|exact HT].
  pose proof (Z.add_lor_land (Z.shiftl (o mod 256) 6) T) as A.
  assert (D : Z.land (Z.shiftl (o mod 256) 6) T = 0).
  { unfold T. rewrite (Z.land_comm (Z.lnot _)), Z.land_assoc.
    change 63 with (Z.ones 6). rewrite (Z.land_ones (Z.shiftl _ 6)) by lia.
    rewrite Z.shiftl_mul_pow2, Z.mod_mul by lia. apply Z.land_0_l. }
  rewrite D, Z.shiftl_mul_pow2 in A by lia. change (2 ^ 6) with 64 in A.
  rewrite Z.shiftl_mul_pow2 by lia. change (2 ^ 6) with 64. lia.
Qed.

(** The addresses of [control-rom.ino] fit 14 bits. *)
Lemma control_rom_address_range (o t_start t : Z) :
  0 <= ControlRom.address o t_start t < 16384.
Proof.
  destruct (control_rom_address_split o t_start t) as (E & HT).
  pose proof (Z.mod_pos_bound o 256). lia.
Qed.

(** X13.  In [control-rom.ino] the opcode can be read back from the
    address: shifting the address right by 6 gives the opcode byte, for
    every opcode and every time-step.  Every address fits in 14 bits, so it
    never reaches the output-enable bit that [setAddress] puts on bit
    15. *)
Theorem control_rom_decode_opcode (o t_start t : Z) :
  Z.shiftr (ControlRom.address o t_start t) 6 = o mod 256 /\
  0 <= ControlRom.address o t_start t < 16384.
Proof.
  destruct (control_rom_address_split o t_start t) as (E & HT).
  pose proof (Z.mod_pos_bound o 256).
  rewrite E, Z.shiftr_div_pow2 by lia. change (2 ^ 6) with 64. split; [|lia].
  rewrite Z.mul_comm, Z.div_add_l, Z.div_small by lia. lia.
Qed.

(** X14.  In [control-rom.ino], for the six time-steps n = t_start + t in
    0..5 the low six address bits are the active-low one-hot ring counter
    signal: bit 5 - n is 0 and the other five are 1. *)
Theorem control_rom_timing_one_hot (o t_start t i : Z) :
  0 <= t_start + t <= 5 -> 0 <= i <= 5 ->
  Z.testbit (ControlRom.address o t_start t) i
  = negb (i =? 5 - (t_start + t)).
Proof.
  intros Hn Hi.
  destruct (control_rom_address_split o t_start t) as (E & HT).
  assert (L : Z.testbit (ControlRom.address o t_start t) i
              = Z.testbit (63 - 2 ^ (5 - (t_start + t))) i).
  { rewrite <- control_rom_timing by lia.
    replace (t_start + t) with (t + t_start) by lia.
    rewrite E, <- (Z.mod_pow2_bits_low _ 6 i) by lia.
    change (2 ^ 6) with 64.
    rewrite Z.add_comm, Z.mul_comm, Z.mod_add, Z.mod_small by lia.
    reflexivity. }
  rewrite L.
  assert (C : t_start + t = 0 \/ t_start + t = 1 \/ t_start + t = 2 \/
              t_start + t = 3 \/ t_start + t = 4 \/ t_start + t = 5) by lia.
  assert (D : i = 0 \/ i = 1 \/ i = 2 \/ i = 3 \/ i = 4 \/ i = 5) by lia.
  destruct C as [->|[->|[->|[->|[->| ->]]]]];
    destruct D as [->|[->|[->|[->|[->| ->]]]]]; reflexivity.
Qed.

Lemma control_rom_timing_one_hot_witness :
  Z.testbit (ControlRom.address 0xE 3 1) 1 = negb (1 =? 5 - (3 + 1)).
Proof. apply (control_rom_timing_one_hot 0xE 3 1 1); lia. Defined.



(** X16.  In [control-rom.ino] the address determines the pair: over all
    byte-wide opcodes and the six time-steps 0..5, two pairs with the same
    address are the same pair. *)
Theorem control_rom_address_injective (o n o' n' : Z) :
  0 <= o < 256 -> 0 <= o' < 256 -> 0 <= n <= 5 -> 0 <= n' <= 5 ->
  ControlRom.address o 0 n = ControlRom.address o' 0 n' ->
  o = o' /\ n = n'.
Proof.
  intros Ho Ho' Hn Hn' E.
  destruct (control_rom_address_split o 0 n) as (E1 & _).
  destruct (control_rom_address_split o' 0 n') as (E2 & _).
  rewrite Z.add_0_r in E1, E2. rewrite E1, E2 in E.
  rewrite (Z.mod_small o), (Z.mod_small o') in E by lia.
  pose proof (control_rom_timing_cases n Hn) as C.
  pose proof (control_rom_timing_cases n' Hn') as D.
  lia.
Qed.

Lemma control_rom_address_injective_witness :
  0xE = 0xE /\ 4 = 4.
Proof.
  apply (control_rom_address_injective 0xE 4 0xE 4);
    first [lia | reflexivity].
Defined.

(** X17.  In [control-rom.ino] one [writeInstruction] call that stays
    within the six time-steps stores its three bytes in three different
    cells: reading any of the three addresses afterwards returns the byte of
    that step. *)
Theorem control_rom_instruction_reads_back (o t_start t : Z)
  (ops : list Z) (s : Board) :
  bus_ok s -> 0 <= t_start -> t_start + 2 <= 5 -> 0 <= t <= 2 ->
  eval (readEEPROM (ControlRom.address o t_start t))
       (exec (ControlRom.writeInstruction o t_start ops) s)
  = nth (Z.to_nat t) ops 0 mod 256.
Proof.
  intros Hs Hts Hte Ht.
  destruct (performs_writeInstruction_control_rom 0 o t_start ops s Hs)
    as (B & E & _).
  pose proof (control_rom_address_range o t_start 0) as R0.
  pose proof (control_rom_address_range o t_start 1) as R1.
  pose proof (control_rom_address_range o t_start 2) as R2.
  destruct (control_rom_address_split o t_start 0) as (S0 & _).
  destruct (control_rom_address_split o t_start 1) as (S1 & _).
  destruct (control_rom_address_split o t_start 2) as (S2 & _).
  pose proof (control_rom_timing_cases (0 + t_start)) as T0.
  pose proof (control_rom_timing_cases (1 + t_start)) as T1.
  pose proof (control_rom_timing_cases (2 + t_start)) as T2.
  assert (N01 : ControlRom.address o t_start 0
                <> ControlRom.address o t_start 1) by lia.
  assert (N02 : ControlRom.address o t_start 0
                <> ControlRom.address o t_start 2) by lia.
  assert (N12 : ControlRom.address o t_start 1
                <> ControlRom.address o t_start 2) by lia.
  apply Z.eqb_neq in N01, N02, N12.
  rewrite readEEPROM_value
    by (try exact B;
        pose proof (control_rom_address_range o t_start t) as R; lia).
  rewrite E. unfold step_writes. cbn [address_of].
  change (range 0 2) with [0; 1; 2]. cbn [map apply_writes].
  rewrite (Z.mod_small (ControlRom.address o t_start 0) 32768),
    (Z.mod_small (ControlRom.address o t_start 1) 32768),
    (Z.mod_small (ControlRom.address o t_start 2) 32768) by lia.
  unfold to_byte, upd.
  assert (C : t = 0 \/ t = 1 \/ t = 2) by lia.
  destruct C as [->|[->| ->]].
  - rewrite N02, N01, Z.eqb_refl. apply Z.mod_mod. lia.
  - rewrite N12, Z.eqb_refl. apply Z.mod_mod. lia.
  - rewrite Z.eqb_refl. apply Z.mod_mod. lia.
Qed.

Lemma control_rom_instruction_reads_back_witness :
  eval (readEEPROM (ControlRom.address 0x1 3 1))
       (exec (ControlRom.writeInstruction 0x1 3 (ControlRom.ADD 1))
             fresh_board)
  = nth (Z.to_nat 1) (ControlRom.ADD 1) 0 mod 256.
Proof.
  apply (control_rom_instruction_reads_back 0x1 3 1 (ControlRom.ADD 1)
           fresh_board); try lia.
  unfold bus_ok. repeat split; reflexivity.
Defined.

(** ** The address computation of [part_000] *)

Lemma part_000_masked_opcode (o : Z) :
  to_byte (Z.land (to_byte o) 0x00F) = o mod 16.
Proof.
  unfold to_byte. change 15 with (Z.ones 4). rewrite Z.land_ones by lia.
  change 256 with (2 ^ 8). rewrite (mod_pow2_mod_pow2 _ 4 8) by lia.
  change (2 ^ 4) with 16. change (2 ^ 8) with 256.
  pose proof (Z.mod_pos_bound o 16). apply Z.mod_small. lia.
Qed.

Lemma part_000_timing_cases (n : Z) :
  0 <= n ->
  (n = 0 /\ Z.land (Z.lnot (Z.shiftr 0x80 n)) 0x3F0 = 880) \/
  (n = 1 /\ Z.land (Z.lnot (Z.shiftr 0x80 n)) 0x3F0 = 944) \/
  (n = 2 /\ Z.land (Z.lnot (Z.shiftr 0x80 n)) 0x3F0 = 976) \/
  (n = 3 /\ Z.land (Z.lnot (Z.shiftr 0x80 n)) 0x3F0 = 992) \/
  (4 <= n /\ Z.land (Z.lnot (Z.shiftr 0x80 n)) 0x3F0 = 1008).
Proof.
  intros H.
  assert (C : n = 0 \/ n = 1 \/ n = 2 \/ n = 3 \/ n = 4 \/ n = 5 \/
              n = 6 \/ n = 7 \/ 8 <= n) by lia.
  destruct C as [->|[->|[->|[->|[->|[->|[->|[->|C]]]]]]]];
    try (intuition (try reflexivity; lia)).
  right; right; right; right. split; [lia|].
  rewrite Z.shiftr_eq_0 by (change (Z.log2 128) with 7; lia). reflexivity.
Qed.

Lemma part_000_address_split (o t_start t : Z) :
  Part000.address o t_start t
  = Z.land (Z.lnot (Z.shiftr 0x80 (t_start + t))) 0x3F0 + o mod 16.
Proof.
  unfold Part000.address. cbv zeta. rewrite part_000_masked_opcode.
  set (T := Z.land (Z.lnot (Z.shiftr 128 (t_start + t))) 1008).
  pose proof (Z.add_lor_land T (o mod 16)) as A.
  assert (D : Z.land T (o mod 16) = 0).
  { unfold T. change 16 with (2 ^ 4). rewrite <- Z.land_ones by lia.
    rewrite <- Z.land_assoc, (Z.land_comm 1008), <- Z.land_assoc.
    change (Z.land (Z.ones 4) 1008) with 0.
    now rewrite !Z.land_0_r. }
  lia.
Qed.

(** X18.  In [part_000] the low four address bits are the opcode modulo
    16, at every time-step, so the opcode can be read back from the
    address. *)
Theorem part_000_decode_opcode (o t_start t : Z) :
  Z.land (Part000.address o t_start t) 0x00F = o mod 16.
Proof.
  unfold Part000.address. cbv zeta. rewrite part_000_masked_opcode.
  rewrite Z.land_lor_distr_l, <- Z.land_assoc.
  change (Z.land 1008 15) with 0. rewrite Z.land_0_r, Z.lor_0_l.
  change 15 with (Z.ones 4). rewrite Z.land_ones by lia.
  change (2 ^ 4) with 16. apply Z.mod_mod. lia.
Qed.



(** X20.  In [part_000] the address determines the pair for the opcodes 0
    to 15 and the time-steps 0 to 3: two such pairs with the same address
    are the same pair. *)
Theorem part_000_address_injective (o n o' n' : Z) :
  0 <= o < 16 -> 0 <= o' < 16 -> 0 <= n <= 3 -> 0 <= n' <= 3 ->
  Part000.address o n 0 = Part000.address o' n' 0 ->
  o = o' /\ n = n'.
Proof.
  intros Ho Ho' Hn Hn' E. rewrite !part_000_address_split in E.
  rewrite !Z.add_0_r in E.
  rewrite (Z.mod_small o), (Z.mod_small o') in E by lia.
  pose proof (part_000_timing_cases n). pose proof (part_000_timing_cases n').
  lia.
Qed.

Lemma part_000_address_injective_witness : 0x2 = 0x2 /\ 3 = 3.
Proof.
  apply (part_000_address_injective 0x2 3 0x2 3); first [lia | reflexivity].
Defined.

(** ** The tables and the image *)

(** X21.  The chip selection is not checked: built with a [ROM_SELECT]
    other than 1 or 2, [control-rom.ino] and [part_000] give every signal
    the value 0, so every micro-step of every table is the byte 0. *)
Theorem unselected_build_is_blank (b : Z) :
  b <> 1 -> b <> 2 ->
  Forall (Forall (eq 0)) (tables_of (control_rom b)) /\
  Forall (Forall (eq 0)) (tables_of (part_000 b)).
Proof.
  intros H1 H2. apply Z.eqb_neq in H1, H2.
  unfold tables_of,
    ControlRom.FETCH, ControlRom.LDA, ControlRom.ADD, ControlRom.SUB,
    ControlRom.LDI, ControlRom.STA, ControlRom.INC, ControlRom.DEC,
    ControlRom.JMP, ControlRom.NOP, ControlRom.OUT, ControlRom.HALT,
    ControlRom.HLT, ControlRom.MI, ControlRom.RI, ControlRom.RO,
    ControlRom.IO, ControlRom.II, ControlRom.AI, ControlRom.AO,
    ControlRom.EO, ControlRom.SU, ControlRom.BI, ControlRom.OI,
    ControlRom.CE, ControlRom.CO, ControlRom.J, ControlRom.NOOP,
    ControlRom.ROM_1_SELECT, ControlRom.ROM_2_SELECT,
    Part000.FETCH, Part000.LDA, Part000.ADD, Part000.SUB, Part000.OUT,
    Part000.HALT, Part000.HLT, Part000.MI, Part000.RI, Part000.RO,
    Part000.IO, Part000.II, Part000.AI, Part000.AO, Part000.EO,
    Part000.SU, Part000.BI, Part000.OI, Part000.CE, Part000.CO, Part000.J,
    Part000.NOOP, Part000.ROM_1_SELECT, Part000.ROM_2_SELECT.
  rewrite H1, H2. split; vm_compute; repeat constructor.
Qed.

Lemma unselected_build_is_blank_witness :
  Forall (Forall (eq 0)) (tables_of (control_rom 3)) /\
  Forall (Forall (eq 0)) (tables_of (part_000 3)).
Proof. apply (unselected_build_is_blank 3); lia. Defined.

(** X22.  [control-rom.ino] and [part_001] keep the round trip for every
    pair [setup] programs: once [setup] has run from reset, the address of
    a programmed (opcode, time-step) reads back as the byte of its table,
    for either chip and whatever the chip held before.  In [part_001] this
    holds although two programmed pairs share the address 0x12, because
    both bytes are 0. *)
Theorem programmed_pairs_read_back (r : Revision) (reg lat : list bool)
  (m : Z -> Z) (o n v : Z) :
  (forall b, r <> part_000 b) ->
  In (o, n, v) (programmed r) ->
  readback r reg lat m (encode r o n) = v.
Proof.
  intros Hr Hin. destruct r as [b|b|].
  - now apply round_trip_control_rom.
  - exfalso. now apply (Hr b).
  - now apply round_trip_part_001.
Qed.

Lemma programmed_pairs_read_back_witness :
  readback part_001 [] [] (fun _ => 0) (encode part_001 0xE 5) = 0.
Proof.
  apply (programmed_pairs_read_back part_001 [] [] (fun _ => 0) 0xE 5 0).
  - intros b. discriminate.
  - in_list.
Defined.

(** The opcodes [setup] gives no instruction steps, and their steps. *)
Lemma unprogrammed_steps_check (r : Revision) :
  forallb (fun o =>
     forallb (fun n =>
        match last_write (program_writes r) (encode r o n) with
        | Some _ => false
        | None => true
        end) (range 3 5)) (range 3 13) = true ->
  forall o n, 3 <= o <= 13 -> 3 <= n <= 5 ->
  last_write (program_writes r) (encode r o n) = None.
Proof.
  intros C o n Ho Hn.
  pose proof (forallb_range _ _ _ (forallb_range _ _ _ C o Ho) n Hn) as G.
  cbv beta in G. now destruct (last_write _ _).
Qed.

(** X23.  [setup] programs instruction steps for the opcodes 0, 1, 2, 0xE
    and 0xF only.  In [control-rom.ino] and [part_000], which store the
    fetch cycle per opcode, the time-steps 3 to 5 of every opcode from 3
    to 13 are left erased: they read back 0xFF. *)
Theorem opcodes_without_steps_read_ff (r : Revision) (reg lat : list bool)
  (m : Z -> Z) (o n : Z) :
  r <> part_001 -> 3 <= o <= 13 -> 3 <= n <= 5 ->
  readback r reg lat m (encode r o n) = 0xff.
Proof.
  intros Hr Ho Hn.
  assert (G : forall r', same_build r r' ->
                (forall o n, 3 <= o <= 13 -> 3 <= n <= 5 ->
                   0 <= encode r' o n < 2048 /\
                   last_write (program_writes r') (encode r' o n) = None) ->
                readback r reg lat m (encode r o n) = 0xff).
  { intros r' Hb C. destruct (same_build_image r r' Hb) as (E1 & _ & E3).
    destruct (C o n Ho Hn) as (R & L). rewrite E1.
    rewrite readback_eq by exact R. now rewrite E3, L. }
  assert (K : forall r', in_chip_steps r' = true ->
     forallb (fun o =>
       forallb (fun n =>
          match last_write (program_writes r') (encode r' o n) with
          | Some _ => false
          | None => true
          end) (range 3 5)) (range 3 13) = true ->
     forall o n, 3 <= o <= 13 -> 3 <= n <= 5 ->
       0 <= encode r' o n < 2048 /\
       last_write (program_writes r') (encode r' o n) = None).
  { intros r' C1 C2 o1 n1 Ho1 Hn1. split.
    - unfold in_chip_steps in C1.
      pose proof (forallb_range _ _ _ (forallb_range _ _ _ C1 o1 Ho1) n1 Hn1)
        as Q.
      cbv beta in Q. apply andb_prop in Q. destruct Q as [Q1 Q2].
      apply Z.leb_le in Q1. apply Z.ltb_lt in Q2. lia.
    - now apply unprogrammed_steps_check. }
  destruct r as [b|b|]; [| |congruence].
  - destruct (calls_control_rom_cases b) as [E|[E|E]];
      [apply (G (control_rom 1) (conj eq_refl E))
      |apply (G (control_rom 2) (conj eq_refl E))
      |apply (G (control_rom 0) (conj eq_refl E))];
      apply K; vm_compute; reflexivity.
  - destruct (calls_part_000_cases b) as [E|[E|E]];
      [apply (G (part_000 1) (conj eq_refl E))
      |apply (G (part_000 2) (conj eq_refl E))
      |apply (G (part_000 0) (conj eq_refl E))];
      apply K; vm_compute; reflexivity.
Qed.

Lemma opcodes_without_steps_read_ff_witness :
  readback (control_rom 1) [] [] (fun _ => 0) (encode (control_rom 1) 7 4)
  = 0xff.
Proof.
  apply (opcodes_without_steps_read_ff (control_rom 1) [] [] (fun _ => 0) 7 4).
  - discriminate.
  - lia.
  - lia.
Defined.
